(** * Grover on IBM QPUs: backend selection, credentials, job retrieval
      and result analysis

    A shallow embedding of [grover/utils.py] and [grover/run_qpu.py].

    Conventions of the embedding.
    - Python [int] is [Z]; [str] is [string]; a [dict] keyed by strings is a
      [gmap string _]; [Optional[T]] and "attribute may be missing"
      ([hasattr]) are [option].
    - A Python call that may raise returns a [result]: [Return v] or
      [Raise e], where [e] carries the exception class and its message.
    - The vendor SDK (backend catalogue, job handles, account storage) is
      outside the repository.  A connected service is modelled by the
      snapshot its methods answer with.
    - [print] only writes to the console and never influences a returned
      value or a raised exception, so console output is left out; the one
      exception is the interpretation band of [analyze_results], which is
      recorded next to the returned fidelity.
    - The float quotient [correct_count / total_shots] is modelled by the
      exact rational it rounds. *)

From Stdlib Require Import ZArith QArith Lia Ascii String.
From Stdlib Require Import Sorting.Sorted.
From stdpp Require Import base option list strings pretty gmap fin_maps.

Local Open Scope string_scope.
Local Open Scope list_scope.
Local Open Scope Z_scope.

(** ** Exceptions and fallible computations *)

Module Py.

(** The exception classes that occur.  [KeyboardInterrupt] derives from
    [BaseException] only, every other class derives from [Exception].
    [SdkError] stands for any [Exception] subclass raised by the SDK. *)
Inductive exn_class : Type :=
| KeyboardInterrupt
| Exception
| ValueError
| ZeroDivisionError
| SdkError (cls : string).

Record exn : Type := Exn { exn_cls : exn_class; exn_msg : string }.

Inductive result (A : Type) : Type :=
| Return (a : A)
| Raise (e : exn).
Arguments Return {A} a.
Arguments Raise {A} e.

Definition bind {A B} (m : result A) (k : A -> result B) : result B :=
  match m with
  | Return a => k a
  | Raise e => Raise e
  end.

(** [isinstance(e, Exception)] *)
Definition is_Exception (e : exn) : bool :=
  match exn_cls e with
  | KeyboardInterrupt => false
  | _ => true
  end.

(** [try: body  except Exception as e: handler(e)] *)
Definition try_except_Exception {A} (body : result A)
    (handler : exn -> result A) : result A :=
  match body with
  | Return a => Return a
  | Raise e => if is_Exception e then handler e else Raise e
  end.

(** The newline character of a string literal, [\n]. *)
Definition nl : string := String "010"%char EmptyString.

(** [str(n)] for an [int]. *)
Definition str_int (n : Z) : string := pretty n.

(** [min(xs, key=key)] on a non-empty list: the first element whose key is
    not exceeded by any other (a later element replaces the current best
    only when its key is strictly smaller). *)
Fixpoint min_from {A} (key : A -> Z) (best : A) (xs : list A) : A :=
  match xs with
  | [] => best
  | x :: xs' => if key x <? key best then min_from key x xs'
                else min_from key best xs'
  end.

Definition min_key {A} (key : A -> Z) (xs : list A) : result A :=
  match xs with
  | [] => Raise (Exn ValueError "min() arg is an empty sequence")
  | x :: xs' => Return (min_from key x xs')
  end.

End Py.

Import Py.

#[global] Instance result_ret : MRet result := @Return.
#[global] Instance result_bind : MBind result := fun A B k m => bind m k.

(** ** The SDK objects read by [grover/utils.py] *)

(** What [backend.status()] answers.  Both attributes are read behind a
    [hasattr] test, so either may be missing. *)
Record BackendStatus : Type := {
  operational : option bool;
  pending_jobs : option Z
}.

(** A backend object.  [simulator] is read behind [hasattr]. *)
Record Backend : Type := {
  name : string;
  num_qubits : Z;
  simulator : option bool;
  status : BackendStatus
}.

(** ** The SDK objects read by [grover/run_qpu.py] *)

(** A measurement histogram, [counts]: bitstring to number of shots. *)
Abbreviation Counts := (gmap string Z).

(** What [job.status()] answers; only its [name] is read. *)
Record JobStatus : Type := { status_name : string }.

(** A job handle: [job.status()] and the histogram reached through
    [job.result()[0].data.meas.get_counts()]; both are remote calls and
    may raise. *)
Record Job : Type := {
  job_status : result JobStatus;
  job_result : result Counts
}.

(** A connected service: the catalogue [service.backends()] answers with
    (each backend together with what its [status()] answers), and the
    lookup [service.job(job_id)], which may raise. *)
Record Service : Type := {
  backends : list Backend;
  job : string -> result Job
}.

(** The dictionaries collected in [available_qpus]. *)
Record QpuInfo : Type := {
  qpu_backend : Backend;
  qpu_name : string;
  qpu_qubits : Z;
  qpu_pending_jobs : Z
}.

(** ** [grover/utils.py] *)

(** [hasattr(backend, 'simulator') and not backend.simulator] *)
Definition is_real_hardware (backend : Backend) : bool :=
  match simulator backend with
  | Some sim => negb sim
  | None => false
  end.

(** [status.operational if hasattr(status, 'operational') else True] *)
Definition operational_or_default (st : BackendStatus) : bool :=
  match operational st with
  | Some op => op
  | None => true
  end.

(** [status.pending_jobs if hasattr(status, 'pending_jobs') else 0] *)
Definition pending_or_default (st : BackendStatus) : Z :=
  match pending_jobs st with
  | Some n => n
  | None => 0
  end.

(** The loop of [list_available_qpus]: the backends that are real hardware
    are appended in the order of the catalogue. *)
Fixpoint hardware_of (bs : list Backend) : list Backend :=
  match bs with
  | [] => []
  | backend :: rest =>
      if is_real_hardware backend
      then backend :: hardware_of rest
      else hardware_of rest
  end.

Definition list_available_qpus (service : Service) : list Backend :=
  hardware_of (backends service).

(** One turn of the first loop of [select_best_qpu]: the dictionary
    appended for [backend], if any. *)
Definition qpu_entry (min_qubits : Z) (backend : Backend) : option QpuInfo :=
  if is_real_hardware backend then
    if num_qubits backend >=? min_qubits then
      let st := status backend in
      if operational_or_default st then
        Some {| qpu_backend := backend;
                qpu_name := name backend;
                qpu_qubits := num_qubits backend;
                qpu_pending_jobs := pending_or_default st |}
      else None
    else None
  else None.

(** The first loop: [available_qpus] starts empty and grows by [append]. *)
Fixpoint collect_qpus (min_qubits : Z) (bs : list Backend)
    (available_qpus : list QpuInfo) : list QpuInfo :=
  match bs with
  | [] => available_qpus
  | backend :: rest =>
      match qpu_entry min_qubits backend with
      | Some info => collect_qpus min_qubits rest (available_qpus ++ [info])
      | None => collect_qpus min_qubits rest available_qpus
      end
  end.

Definition available_qpus (service : Service) (min_qubits : Z) : list QpuInfo :=
  collect_qpus min_qubits (backends service) [].

(** The inner loop over [available_qpus] for one preferred name. *)
Fixpoint find_named (preferred_name : string) (available : list QpuInfo)
    : option QpuInfo :=
  match available with
  | [] => None
  | qpu_info :: rest =>
      if String.eqb (qpu_name qpu_info) preferred_name then Some qpu_info
      else find_named preferred_name rest
  end.

(** The outer loop over [preferred_qpus]; [Some] is the early [return]. *)
Fixpoint scan_preferred (preferred_qpus : list string)
    (available : list QpuInfo) : option QpuInfo :=
  match preferred_qpus with
  | [] => None
  | preferred_name :: rest =>
      match find_named preferred_name available with
      | Some qpu_info => Some qpu_info
      | None => scan_preferred rest available
      end
  end.

Definition no_qpu_message (min_qubits : Z) : string :=
  "Nenhum QPU operacional encontrado com pelo menos " +:+ str_int min_qubits
  +:+ " qubits." +:+ nl +:+ "Verifique seu acesso em: https://quantum.ibm.com/".

(** [if preferred_qpus:] is false for [None] and for the empty list. *)
Definition truthy_list {A} (l : option (list A)) : list A :=
  match l with
  | Some xs => xs
  | None => []
  end.

Definition select_best_qpu (service : Service)
    (preferred_qpus : option (list string)) (min_qubits : Z)
    : result Backend :=
  let available := available_qpus service min_qubits in
  match available with
  | [] => Raise (Exn ValueError (no_qpu_message min_qubits))
  | _ :: _ =>
      match scan_preferred (truthy_list preferred_qpus) available with
      | Some qpu_info => Return (qpu_backend qpu_info)
      | None =>
          best_qpu ← min_key qpu_pending_jobs available;
          Return (qpu_backend best_qpu)
      end
  end.

(** The default of the parameter [min_qubits]. *)
Definition default_min_qubits : Z := 2.

(** *** Credentials *)

(** [load_dotenv()]: the assignments of the [.env] file are added to the
    process environment; a variable that is already set keeps its value. *)
Definition load_dotenv (dotenv environ : gmap string string)
    : gmap string string :=
  environ ∪ dotenv.

(** [os.getenv(key)] *)
Definition getenv (environ : gmap string string) (key : string)
    : option string :=
  environ !! key.

(** [not s] for an [Optional[str]]: [None] and the empty string. *)
Definition not_str (s : option string) : bool :=
  match s with
  | None => true
  | Some EmptyString => true
  | Some (String _ _) => false
  end.

Definition api_key_message : string :=
  "IBM_API_KEY não encontrada no .env" +:+ nl +:+
  "Configure sua API key em: https://quantum.ibm.com/".

Definition instance_message : string :=
  "QISKIT_IBM_INSTANCE não encontrada no .env" +:+ nl +:+
  "Configure seu CRN da instância em: https://quantum.ibm.com/".

Definition load_ibm_credentials (dotenv environ : gmap string string)
    : result (string * string) :=
  let environ := load_dotenv dotenv environ in
  let api_key := getenv environ "IBM_API_KEY" in
  let instance := getenv environ "QISKIT_IBM_INSTANCE" in
  if not_str api_key then Raise (Exn ValueError api_key_message)
  else if not_str instance then Raise (Exn ValueError instance_message)
  else Return (default "" api_key, default "" instance).

(** *** Connection *)

Section Connection.

(** The account store of the SDK and its two entry points:
    [QiskitRuntimeService(channel=..., instance=...)] and
    [QiskitRuntimeService.save_account(channel=..., token=...,
    instance=..., overwrite=...)]. *)
Variable Accounts : Type.
Variable connect : Accounts -> string -> string -> result Service.
Variable save_account :
  Accounts -> string -> string -> string -> bool -> result Accounts.

Definition connection_message (save_error : exn) : string :=
  "Erro ao conectar com IBM Quantum: " +:+ exn_msg save_error +:+ nl +:+
  "Verifique suas credenciais no .env".

Definition get_qiskit_service (dotenv environ : gmap string string)
    (saved : Accounts) : result Service :=
  '(api_key, instance) ← load_ibm_credentials dotenv environ;
  try_except_Exception
    (connect saved "ibm_quantum" instance)
    (fun e =>
       try_except_Exception
         (saved' ← save_account saved "ibm_quantum" api_key instance true;
          connect saved' "ibm_quantum" instance)
         (fun save_error =>
            Raise (Exn Exception (connection_message save_error)))).

(** ** [grover/run_qpu.py] *)

(** [retrieve_job]; the sentinel [None] is [Return None]. *)
Definition retrieve_job (dotenv environ : gmap string string)
    (saved : Accounts) (job_id : string) (service : option Service)
    : result (option Counts) :=
  service ← match service with
            | None => get_qiskit_service dotenv environ saved
            | Some service => Return service
            end;
  try_except_Exception
    (j ← job service job_id;
     st ← job_status j;
     if String.eqb (status_name st) "DONE" then
       counts ← job_result j;
       Return (Some counts)
     else Return None)
    (fun e => Raise e).

End Connection.

(** *** Result analysis *)

(** [sum(counts.values())] *)
Definition sum_values (counts : Counts) : Z :=
  map_fold (fun _ count acc => acc + count) 0 counts.

(** [a / b] on two [int]s. *)
Definition true_div (a b : Z) : result Q :=
  if b =? 0 then Raise (Exn ZeroDivisionError "division by zero")
  else Return (inject_Z a / inject_Z b)%Q.

(** The four branches of the interpretation printed by
    [analyze_results]. *)
Inductive Band : Type := Excellent | Good | Moderate | Poor.

Definition interpret (fidelity : Q) : Band :=
  if Qle_bool 0.80 fidelity then Excellent
  else if Qle_bool 0.60 fidelity then Good
  else if Qle_bool 0.40 fidelity then Moderate
  else Poor.

Record Analysis : Type := {
  total_shots : Z;
  fidelity : Q;
  band : Band
}.

(** The default of the parameter [expected_state]. *)
Definition default_expected_state : string := "11".

Definition analyze_results (counts : Counts) (backend_name : string)
    (expected_state : string) : result Analysis :=
  let total := sum_values counts in
  let correct_count := default 0 (counts !! expected_state) in
  fid ← true_div correct_count total;
  Return {| total_shots := total; fidelity := fid; band := interpret fid |}.

(** * Properties *)

(** ** The candidates of [select_best_qpu] *)

(** A backend survives the filter of [select_best_qpu] when it is real
    hardware, has at least [min_qubits] qubits and is operational (a status
    without the attribute counts as operational). *)
Definition survives (min_qubits : Z) (backend : Backend) : bool :=
  is_real_hardware backend
  && (num_qubits backend >=? min_qubits)
  && operational_or_default (status backend).

(** The surviving candidates, in the order of the catalogue. *)
Definition surviving (service : Service) (min_qubits : Z) : list Backend :=
  List.filter (survives min_qubits) (backends service).

(** The queue depth [select_best_qpu] records for a backend. *)
Definition queue_depth (backend : Backend) : Z :=
  pending_or_default (status backend).

(** The dictionary [select_best_qpu] builds for a surviving backend. *)
Definition info_of (backend : Backend) : QpuInfo :=
  {| qpu_backend := backend;
     qpu_name := name backend;
     qpu_qubits := num_qubits backend;
     qpu_pending_jobs := queue_depth backend |}.

(** [needle] occurs in [text]. *)
Definition mentions (needle text : string) : Prop :=
  exists before after, text = before +:+ needle +:+ after.

(** A variable is missing when it is absent or set to the empty string. *)
Definition missing (environ : gmap string string) (key : string) : Prop :=
  environ !! key = None \/ environ !! key = Some "".

(** ** Example catalogues *)

Definition reported (operational_flag : bool) (pending : Z) : BackendStatus :=
  {| operational := Some operational_flag; pending_jobs := Some pending |}.

Definition ibm_real2 : Backend :=
  {| name := "ibm_real2"; num_qubits := 5; simulator := Some false;
     status := reported true 9 |}.

Definition ibm_real3 : Backend :=
  {| name := "ibm_real3"; num_qubits := 5; simulator := Some false;
     status := reported true 1 |}.

Definition ibm_tiny1 : Backend :=
  {| name := "ibm_tiny1"; num_qubits := 2; simulator := Some false;
     status := reported true 0 |}.

Definition ibm_tiny2 : Backend :=
  {| name := "ibm_tiny2"; num_qubits := 2; simulator := Some false;
     status := reported true 3 |}.

(** A backend object without the attribute [simulator]. *)
Definition ibm_untyped : Backend :=
  {| name := "ibm_untyped"; num_qubits := 7; simulator := None;
     status := reported true 0 |}.

(** A backend whose status has neither [operational] nor [pending_jobs]. *)
Definition ibm_silent : Backend :=
  {| name := "ibm_silent"; num_qubits := 5; simulator := Some false;
     status := {| operational := None; pending_jobs := None |} |}.

(** A service that knows no job. *)
Definition no_jobs (job_id : string) : result Job :=
  Raise (Exn (SdkError "IBMRuntimeError") ("Job not found: " +:+ job_id)).

Definition catalogue (bs : list Backend) : Service :=
  {| backends := bs; job := no_jobs |}.

(** ** Example histograms, environments and jobs *)

Definition scenario_counts : Counts :=
  list_to_map [("11", 820); ("00", 60); ("01", 70); ("10", 50)].

(** A histogram of a run without shots. *)
Definition zero_counts : Counts := list_to_map [("11", 0); ("00", 0)].

Definition env_complete : gmap string string :=
  list_to_map [("IBM_API_KEY", "k3y"); ("QISKIT_IBM_INSTANCE", "crn:v1:q")].

Definition env_no_instance : gmap string string :=
  list_to_map [("IBM_API_KEY", "k3y"); ("QISKIT_IBM_INSTANCE", "")].

Definition done_job : Job :=
  {| job_status := Return {| status_name := "DONE" |};
     job_result := Return scenario_counts |}.

Definition queued_job : Job :=
  {| job_status := Return {| status_name := "QUEUED" |};
     job_result := Raise (Exn (SdkError "RuntimeJobFailureError") "no result") |}.

Definition lost_job : Job :=
  {| job_status := Raise (Exn (SdkError "IBMRuntimeError") "status failed");
     job_result := Raise (Exn (SdkError "IBMRuntimeError") "status failed") |}.

Definition job_table (job_id : string) : result Job :=
  if String.eqb job_id "job-done" then Return done_job
  else if String.eqb job_id "job-queued" then Return queued_job
  else if String.eqb job_id "job-lost" then Return lost_job
  else no_jobs job_id.

Definition job_service : Service :=
  {| backends := [ibm_real2]; job := job_table |}.

(** An account store that always connects to [job_service]. *)
Definition connect_always (saved : unit) (channel instance : string)
    : result Service :=
  Return job_service.

Definition save_always (saved : unit) (channel token instance : string)
    (overwrite : bool) : result unit :=
  Return tt.

(** * The rest of the code *)

(** ** [grover/circuits.py] *)

(** The operations that occur in the circuit; [operation.name] is
    [gate_name]. *)
Inductive Operation : Type :=
| OpH
| OpX
| OpCZ
| OpCX
| OpBarrier (label : option string)
| OpMeasure.

Definition gate_name (op : Operation) : string :=
  match op with
  | OpH => "h"
  | OpX => "x"
  | OpCZ => "cz"
  | OpCX => "cx"
  | OpBarrier _ => "barrier"
  | OpMeasure => "measure"
  end.

(** An entry of [circuit.data]. *)
Record Instruction : Type := {
  operation : Operation;
  qubits : list nat;
  clbits : list nat
}.

Record QuantumCircuit : Type := {
  circuit_name : string;
  circuit_num_qubits : nat;
  circuit_num_clbits : nat;
  data : list Instruction
}.

(** [QuantumCircuit(n, name=...)] *)
Definition new_circuit (n : nat) (circuit_name : string) : QuantumCircuit :=
  {| circuit_name := circuit_name; circuit_num_qubits := n;
     circuit_num_clbits := 0; data := [] |}.

Definition append_all (instrs : list Instruction) (qc : QuantumCircuit)
    : QuantumCircuit :=
  {| circuit_name := circuit_name qc;
     circuit_num_qubits := circuit_num_qubits qc;
     circuit_num_clbits := circuit_num_clbits qc;
     data := data qc ++ instrs |}.

(** [qc.h(qs)] and [qc.x(qs)]: one instruction per listed qubit. *)
Definition qc_h (qs : list nat) : QuantumCircuit -> QuantumCircuit :=
  append_all ((fun q => {| operation := OpH; qubits := [q]; clbits := [] |})
                <$> qs).

Definition qc_x (qs : list nat) : QuantumCircuit -> QuantumCircuit :=
  append_all ((fun q => {| operation := OpX; qubits := [q]; clbits := [] |})
                <$> qs).

(** [qc.cz(c, t)] and [qc.cx(c, t)] *)
Definition qc_cz (c t : nat) : QuantumCircuit -> QuantumCircuit :=
  append_all [{| operation := OpCZ; qubits := [c; t]; clbits := [] |}].

Definition qc_cx (c t : nat) : QuantumCircuit -> QuantumCircuit :=
  append_all [{| operation := OpCX; qubits := [c; t]; clbits := [] |}].

(** [qc.barrier(label=...)]: a barrier across all qubits. *)
Definition qc_barrier (label : option string) (qc : QuantumCircuit)
    : QuantumCircuit :=
  append_all [{| operation := OpBarrier label;
                 qubits := seq 0 (circuit_num_qubits qc); clbits := [] |}] qc.

(** [qc.measure_all()]: a classical register with one bit per qubit is
    added, then a barrier, then qubit [q] is measured into the new bit
    [q]. *)
Definition qc_measure_all (qc : QuantumCircuit) : QuantumCircuit :=
  let n := circuit_num_qubits qc in
  let first := circuit_num_clbits qc in
  let qc := {| circuit_name := circuit_name qc;
               circuit_num_qubits := n;
               circuit_num_clbits := (first + n)%nat;
               data := data qc |} in
  append_all ((fun q => {| operation := OpMeasure; qubits := [q];
                           clbits := [(first + q)%nat] |}) <$> seq 0 n)
    (qc_barrier None qc).

Definition build_grover_2bit_circuit : QuantumCircuit :=
  let qc := new_circuit 2 "Grover_2bit" in
  let qc := qc_h [0; 1]%nat qc in
  let qc := qc_barrier (Some "Superposição") qc in
  let qc := qc_cz 0 1 qc in
  let qc := qc_barrier (Some "Oracle |11⟩") qc in
  let qc := qc_h [0; 1]%nat qc in
  let qc := qc_x [0; 1]%nat qc in
  let qc := qc_h [1%nat] qc in
  let qc := qc_cx 0 1 qc in
  let qc := qc_h [1%nat] qc in
  let qc := qc_x [0; 1]%nat qc in
  let qc := qc_h [0; 1]%nat qc in
  let qc := qc_barrier (Some "Difusor") qc in
  qc_measure_all qc.

(** The loop of [print_circuit_info] that counts the gates:
    [gate_counts[gate_name] = gate_counts.get(gate_name, 0) + 1]. *)
Fixpoint count_gates (instructions : list Instruction)
    (gate_counts : gmap string Z) : gmap string Z :=
  match instructions with
  | [] => gate_counts
  | instruction :: rest =>
      let gate := gate_name (operation instruction) in
      count_gates rest
        (<[gate := default 0 (gate_counts !! gate) + 1]> gate_counts)
  end.

(** What [print_circuit_info] prints, apart from the depth. *)
Record CircuitInfo : Type := {
  info_name : string;
  info_num_qubits : nat;
  info_num_clbits : nat;
  info_operations : nat;
  info_gate_counts : gmap string Z
}.

Definition print_circuit_info (circuit : QuantumCircuit) : CircuitInfo :=
  {| info_name := circuit_name circuit;
     info_num_qubits := circuit_num_qubits circuit;
     info_num_clbits := circuit_num_clbits circuit;
     info_operations := length (data circuit);
     info_gate_counts := count_gates (data circuit) ∅ |}.

(** *** The states of two qubits

    The state [2^(-halvings/2) * (a00 |00> + a01 |01> + a10 |10> + a11 |11>)],
    a ket being written [|q1 q0>] as in the histogram keys.  Every gate of
    the circuit has entries in [{0, 1, -1}] up to the factor [1/sqrt 2] of a
    Hadamard gate, which [halvings] counts. *)
Record Amplitudes : Type := {
  a00 : Z; a01 : Z; a10 : Z; a11 : Z;
  halvings : nat
}.

(** The state [|00>] every circuit starts in. *)
Definition ket00 : Amplitudes :=
  {| a00 := 1; a01 := 0; a10 := 0; a11 := 0; halvings := 0 |}.

(** The action of one instruction; [None] for an operand list the gate
    does not take.  Measurements are read off the final amplitudes by
    [outcome_weight]. *)
Definition apply_instruction (instruction : Instruction) (s : Amplitudes)
    : option Amplitudes :=
  match operation instruction, qubits instruction with
  | OpH, [0%nat] =>
      Some {| a00 := a00 s + a01 s; a01 := a00 s - a01 s;
              a10 := a10 s + a11 s; a11 := a10 s - a11 s;
              halvings := S (halvings s) |}
  | OpH, [1%nat] =>
      Some {| a00 := a00 s + a10 s; a01 := a01 s + a11 s;
              a10 := a00 s - a10 s; a11 := a01 s - a11 s;
              halvings := S (halvings s) |}
  | OpX, [0%nat] =>
      Some {| a00 := a01 s; a01 := a00 s; a10 := a11 s; a11 := a10 s;
              halvings := halvings s |}
  | OpX, [1%nat] =>
      Some {| a00 := a10 s; a01 := a11 s; a10 := a00 s; a11 := a01 s;
              halvings := halvings s |}
  | OpCZ, [0%nat; 1%nat] | OpCZ, [1%nat; 0%nat] =>
      Some {| a00 := a00 s; a01 := a01 s; a10 := a10 s; a11 := - a11 s;
              halvings := halvings s |}
  | OpCX, [0%nat; 1%nat] =>
      Some {| a00 := a00 s; a01 := a11 s; a10 := a10 s; a11 := a01 s;
              halvings := halvings s |}
  | OpCX, [1%nat; 0%nat] =>
      Some {| a00 := a00 s; a01 := a01 s; a10 := a11 s; a11 := a10 s;
              halvings := halvings s |}
  | OpBarrier _, _ => Some s
  | OpMeasure, [_] => Some s
  | _, _ => None
  end.

Fixpoint run_instructions (instructions : list Instruction) (s : Amplitudes)
    : option Amplitudes :=
  match instructions with
  | [] => Some s
  | instruction :: rest =>
      match apply_instruction instruction s with
      | Some s' => run_instructions rest s'
      | None => None
      end
  end.

(** The same state written with two more halvings. *)
Definition rescale (s : Amplitudes) : Amplitudes :=
  {| a00 := 2 * a00 s; a01 := 2 * a01 s; a10 := 2 * a10 s; a11 := 2 * a11 s;
     halvings := S (S (halvings s)) |}.

(** The squared norm of the state, times [2 ^ halvings]. *)
Definition weight (s : Amplitudes) : Z :=
  a00 s * a00 s + a01 s * a01 s + a10 s * a10 s + a11 s * a11 s.

(** The instructions before the barrier labelled [label]. *)
Fixpoint before_barrier (label : string) (instructions : list Instruction)
    : list Instruction :=
  match instructions with
  | [] => []
  | instruction :: rest =>
      match operation instruction with
      | OpBarrier (Some l) =>
          if String.eqb l label then []
          else instruction :: before_barrier label rest
      | _ => instruction :: before_barrier label rest
      end
  end.

(** How often a gate name occurs in a list of instructions. *)
Definition occurrences (gate : string) (instructions : list Instruction) : nat :=
  length (List.filter (fun i => String.eqb (gate_name (operation i)) gate)
            instructions).

(** ** The rest of [grover/utils.py] *)

Section Validation.

Variable Accounts : Type.
Variable connect : Accounts -> string -> string -> result Service.
Variable save_account :
  Accounts -> string -> string -> string -> bool -> result Accounts.

(** [validate_connection].  The credentials are loaded once directly and
    once more inside [get_qiskit_service], which then finds the environment
    as the first [load_dotenv] left it. *)
Definition validate_connection (dotenv environ : gmap string string)
    (saved : Accounts) : result bool :=
  try_except_Exception
    (_ ← load_ibm_credentials dotenv environ;
     service ← get_qiskit_service Accounts connect save_account
                 dotenv (load_dotenv dotenv environ) saved;
     match list_available_qpus service with
     | _ :: _ => Return true
     | [] => Return false
     end)
    (fun e => Return false).

End Validation.

(** ** The rest of [grover/run_qpu.py] *)

(** *** The ranking printed by [analyze_results] *)

(** [sorted(items, key=lambda x: x[1], reverse=True)]: descending counts,
    items of equal count in the order they had.  An item is entered in
    front of the sorted rest, behind the items of a strictly greater
    count. *)
Fixpoint insert_desc (item : string * Z) (sorted : list (string * Z))
    : list (string * Z) :=
  match sorted with
  | [] => [item]
  | other :: rest =>
      if item.2 <? other.2 then other :: insert_desc item rest
      else item :: other :: rest
  end.

Definition sorted_by_count (items : list (string * Z)) : list (string * Z) :=
  foldr insert_desc [] items.

(** A line of the distribution, without the percentage and the bar:
    the state, its count and whether the marker of the expected state is
    printed. *)
Record Row : Type := {
  row_state : string;
  row_count : Z;
  row_target : bool
}.

(** The loop over the sorted [counts.items()]. *)
Definition distribution_rows (items : list (string * Z))
    (expected_state : string) : list Row :=
  (fun item => {| row_state := item.1; row_count := item.2;
                  row_target := String.eqb item.1 expected_state |})
    <$> sorted_by_count items.

(** *** Saved results *)

(** The dictionary [result_data]; the file holds its JSON text. *)
Record ResultData : Type := {
  rd_job_id : string;
  rd_backend : string;
  rd_counts : Counts;
  rd_fidelity : Q;
  rd_total_shots : Z;
  rd_expected_state : string
}.

(** The name of the file inside the directory [results]. *)
Definition result_file (job_id : string) : string :=
  "grover_result_" +:+ job_id +:+ ".json".

(** [save_results]: the directory [results], as a map from file names to
    what the files hold, after the file was written (opened with ['w']). *)
Definition save_results (results_dir : gmap string ResultData)
    (counts : Counts) (job_id backend_name : string) (fidelity : Q)
    : gmap string ResultData :=
  <[result_file job_id :=
      {| rd_job_id := job_id;
         rd_backend := backend_name;
         rd_counts := counts;
         rd_fidelity := fidelity;
         rd_total_shots := sum_values counts;
         rd_expected_state := "11" |}]> results_dir.

(** *** Running on a QPU *)

(** [backend_names.json] with its three fields. *)
Record Config : Type := {
  cfg_shots : Z;
  cfg_optimization_level : Z;
  cfg_preferred_qpus : list string
}.

(** The handlers of [main]: [except KeyboardInterrupt: return None] and
    [except Exception: raise]. *)
Definition main_handler {A} (e : exn) : result (option A) :=
  match exn_cls e with
  | KeyboardInterrupt => Return None
  | _ => Raise e
  end.

Section Execution.

Variable Accounts : Type.
Variable connect : Accounts -> string -> string -> result Service.
Variable save_account :
  Accounts -> string -> string -> string -> bool -> result Accounts.

(** [load_config()]: reading and parsing the file may raise. *)
Variable load_config : result Config.

(** [transpile(circuit, backend, optimization_level=...)] *)
Variable TranspiledCircuit : Type.
Variable transpile :
  QuantumCircuit -> Backend -> Z -> result TranspiledCircuit.

(** Opening the session on the backend and [sampler.run([t_circuit],
    shots=...)]: the job identifier and the job handle. *)
Variable sampler_run :
  Service -> Backend -> TranspiledCircuit -> Z -> result (string * Job).

(** [run_grover_on_qpu].  Both handlers around [job.result()] re-raise. *)
Definition run_grover_on_qpu (dotenv environ : gmap string string)
    (saved : Accounts) : result (Counts * string * string) :=
  config ← load_config;
  service ← get_qiskit_service Accounts connect save_account
              dotenv environ saved;
  backend ← select_best_qpu service (Some (cfg_preferred_qpus config)) 2;
  let circuit := build_grover_2bit_circuit in
  t_circuit ← transpile circuit backend (cfg_optimization_level config);
  '(job_id, j) ← sampler_run service backend t_circuit (cfg_shots config);
  counts ← try_except_Exception (job_result j) (fun e => Raise e);
  Return (counts, job_id, name backend).

(** [main], together with the directory [results] it leaves. *)
Definition main (dotenv environ : gmap string string) (saved : Accounts)
    (results_dir : gmap string ResultData)
    : result (option (Counts * string * Q)) * gmap string ResultData :=
  match run_grover_on_qpu dotenv environ saved with
  | Raise e => (main_handler e, results_dir)
  | Return (counts, job_id, backend_name) =>
      match analyze_results counts backend_name default_expected_state with
      | Raise e => (main_handler e, results_dir)
      | Return analysis =>
          (Return (Some (counts, job_id, fidelity analysis)),
           save_results results_dir counts job_id backend_name
             (fidelity analysis))
      end
  end.

End Execution.

(** ** Example runs *)

Definition example_config : Config :=
  {| cfg_shots := 1000; cfg_optimization_level := 3;
     cfg_preferred_qpus := ["ibm_fake1"; "ibm_real2"] |}.

Definition transpile_id (circuit : QuantumCircuit) (backend : Backend)
    (optimization_level : Z) : result QuantumCircuit :=
  Return circuit.

Definition run_done (service : Service) (backend : Backend)
    (circuit : QuantumCircuit) (shots : Z) : result (string * Job) :=
  Return ("job-done", done_job).

(** A job whose wait is interrupted from the keyboard. *)
Definition interrupted_job : Job :=
  {| job_status := Return {| status_name := "RUNNING" |};
     job_result := Raise (Exn KeyboardInterrupt "") |}.

Definition run_interrupted (service : Service) (backend : Backend)
    (circuit : QuantumCircuit) (shots : Z) : result (string * Job) :=
  Return ("job-slow", interrupted_job).

(** A job that ends without a single shot. *)
Definition empty_job : Job :=
  {| job_status := Return {| status_name := "DONE" |};
     job_result := Return zero_counts |}.

Definition run_empty (service : Service) (backend : Backend)
    (circuit : QuantumCircuit) (shots : Z) : result (string * Job) :=
  Return ("job-empty", empty_job).

(** An account store that refuses every connection. *)
Definition connect_never (saved : unit) (channel instance : string)
    : result Service :=
  Raise (Exn (SdkError "IBMNotAuthorizedError") "401").

(** An account store that connects only after the account was saved. *)
Definition connect_saved (saved : bool) (channel instance : string)
    : result Service :=
  if saved then Return job_service
  else Raise (Exn (SdkError "AccountNotFoundError") "no account").

Definition save_flag (saved : bool) (channel token instance : string)
    (overwrite : bool) : result bool :=
  Return true.

(** A service with simulators only. *)
Definition ibm_sim : Backend :=
  {| name := "ibm_sim"; num_qubits := 32; simulator := Some true;
     status := reported true 0 |}.

Definition connect_sim (saved : unit) (channel instance : string)
    : result Service :=
  Return (catalogue [ibm_sim]).

(** The bands from the lowest to the highest. *)
Definition band_rank (b : Band) : nat :=
  match b with
  | Poor => 0
  | Moderate => 1
  | Good => 2
  | Excellent => 3
  end.

Lemma qpu_entry_survives min_qubits backend :
  qpu_entry min_qubits backend =
  if survives min_qubits backend then Some (info_of backend) else None.
Proof.
  unfold qpu_entry, survives.
  destruct (is_real_hardware backend); simpl; [|done].
  destruct (num_qubits backend >=? min_qubits); simpl; [|done].
  by destruct (operational_or_default (status backend)).
Qed.

Lemma collect_qpus_omap min_qubits bs acc :
  collect_qpus min_qubits bs acc = acc ++ omap (qpu_entry min_qubits) bs.
Proof.
  revert acc. induction bs as [|b bs IH]; intros acc; simpl.
  - by rewrite app_nil_r.
  - destruct (qpu_entry min_qubits b); rewrite IH; [|done].
    by rewrite <- app_assoc.
Qed.

Lemma omap_entry_filter min_qubits bs :
  omap (qpu_entry min_qubits) bs
  = info_of <$> List.filter (survives min_qubits) bs.
Proof.
  induction bs as [|b bs IH]; [done|]. simpl.
  rewrite qpu_entry_survives.
  destruct (survives min_qubits b); simpl; [f_equal|]; exact IH.
Qed.

Lemma available_qpus_surviving service min_qubits :
  available_qpus service min_qubits = info_of <$> surviving service min_qubits.
Proof.
  unfold available_qpus, surviving.
  rewrite collect_qpus_omap. apply omap_entry_filter.
Qed.

Lemma surviving_elem service min_qubits b :
  b ∈ surviving service min_qubits <->
  b ∈ backends service /\ survives min_qubits b = true.
Proof.
  unfold surviving. rewrite !list_elem_of_In. apply filter_In.
Qed.

Lemma survives_inv min_qubits b :
  survives min_qubits b = true ->
  simulator b = Some false /\ min_qubits <= num_qubits b
  /\ operational_or_default (status b) = true.
Proof.
  unfold survives, is_real_hardware. intros H.
  apply andb_true_iff in H as [H Hop]. apply andb_true_iff in H as [Hhw Hq].
  split; [|split; [lia|done]].
  destruct (simulator b) as [[]|]; simpl in Hhw; congruence.
Qed.

(** ** The two loops over the preferences *)

Lemma find_named_first p before b after :
  name b = p ->
  (forall c, c ∈ before -> name c <> p) ->
  find_named p (info_of <$> (before ++ b :: after)) = Some (info_of b).
Proof.
  intros Hb. induction before as [|c before IH]; intros Hne; simpl.
  - by rewrite (proj2 (String.eqb_eq _ _) Hb).
  - rewrite (proj2 (String.eqb_neq _ _)); [|apply Hne; left].
    apply IH. intros c' Hc'. apply Hne. by right.
Qed.

Lemma find_named_none p l :
  (forall c, c ∈ l -> name c <> p) ->
  find_named p (info_of <$> l) = None.
Proof.
  induction l as [|c l IH]; intros Hne; simpl; [done|].
  rewrite (proj2 (String.eqb_neq _ _)); [|apply Hne; left].
  apply IH. intros c' Hc'. apply Hne. by right.
Qed.

Lemma find_named_Some p l info :
  find_named p l = Some info -> info ∈ l /\ qpu_name info = p.
Proof.
  induction l as [|c l IH]; simpl; [done|].
  destruct (String.eqb (qpu_name c) p) eqn:E.
  - intros [= <-]. split; [left|]. by apply String.eqb_eq.
  - intros H. destruct (IH H) as [Hin Hn]. split; [by right|done].
Qed.

Lemma scan_preferred_nil prefs : scan_preferred prefs [] = None.
Proof. induction prefs as [|p prefs IH]; [done|exact IH]. Qed.

Lemma scan_preferred_none prefs l :
  (forall p, p ∈ prefs -> forall c, c ∈ l -> name c <> p) ->
  scan_preferred prefs (info_of <$> l) = None.
Proof.
  induction prefs as [|p prefs IH]; intros Hne; simpl; [done|].
  rewrite find_named_none; [|apply Hne; left].
  apply IH. intros p' Hp'. apply Hne. by right.
Qed.

Lemma scan_preferred_app_none before prefs l :
  (forall p, p ∈ before -> forall c, c ∈ l -> name c <> p) ->
  scan_preferred (before ++ prefs) (info_of <$> l)
  = scan_preferred prefs (info_of <$> l).
Proof.
  induction before as [|p before IH]; intros Hne; simpl; [done|].
  rewrite find_named_none; [|apply Hne; left].
  apply IH. intros p' Hp'. apply Hne. by right.
Qed.

Lemma scan_preferred_Some prefs l info :
  scan_preferred prefs l = Some info ->
  info ∈ l /\ qpu_name info ∈ prefs.
Proof.
  induction prefs as [|p prefs IH]; simpl; [done|].
  destruct (find_named p l) as [i|] eqn:E.
  - intros [= <-]. apply find_named_Some in E as [Hin <-].
    split; [done|left].
  - intros H. destruct (IH H). split; [done|by right].
Qed.

(** ** [min] with a key *)

Lemma min_from_elem {A} (key : A -> Z) best xs :
  min_from key best xs ∈ best :: xs.
Proof.
  revert best. induction xs as [|x xs IH]; intros best; simpl; [left|].
  destruct (key x <? key best).
  - right. apply IH.
  - specialize (IH best). apply elem_of_cons in IH as [->|IH];
      [left|right; by right].
Qed.

Lemma min_from_le_best {A} (key : A -> Z) best xs :
  key (min_from key best xs) <= key best.
Proof.
  revert best. induction xs as [|x xs IH]; intros best; simpl; [lia|].
  destruct (Z.ltb_spec (key x) (key best)).
  - specialize (IH x). lia.
  - apply IH.
Qed.

Lemma min_from_le {A} (key : A -> Z) best xs x :
  x ∈ best :: xs -> key (min_from key best xs) <= key x.
Proof.
  revert best. induction xs as [|y xs IH]; intros best Hin; simpl.
  - apply elem_of_cons in Hin as [->|Hin]; [lia|]. by inversion Hin.
  - apply elem_of_cons in Hin as [->|Hin].
    + destruct (Z.ltb_spec (key y) (key best)).
      * pose proof (min_from_le_best key y xs). lia.
      * apply min_from_le_best.
    + destruct (Z.ltb_spec (key y) (key best)).
      * apply IH. done.
      * apply elem_of_cons in Hin as [->|Hin].
        -- pose proof (min_from_le_best key best xs). lia.
        -- apply IH. by right.
Qed.

Lemma min_from_info c0 cs :
  qpu_backend (min_from qpu_pending_jobs (info_of c0) (info_of <$> cs))
  = min_from queue_depth c0 cs.
Proof.
  revert c0. induction cs as [|c cs IH]; intros c0; simpl; [done|].
  change (qpu_pending_jobs (info_of c)) with (queue_depth c).
  change (qpu_pending_jobs (info_of c0)) with (queue_depth c0).
  destruct (queue_depth c <? queue_depth c0); apply IH.
Qed.

(** ** [select_best_qpu], case by case *)

Lemma select_best_qpu_empty service prefs min_qubits :
  surviving service min_qubits = [] ->
  select_best_qpu service prefs min_qubits
  = Raise (Exn ValueError (no_qpu_message min_qubits)).
Proof.
  intros H. unfold select_best_qpu.
  by rewrite available_qpus_surviving, H.
Qed.

Lemma select_best_qpu_match service prefs min_qubits info :
  scan_preferred (truthy_list prefs) (info_of <$> surviving service min_qubits)
  = Some info ->
  select_best_qpu service prefs min_qubits = Return (qpu_backend info).
Proof.
  intros H. unfold select_best_qpu. rewrite available_qpus_surviving.
  destruct (info_of <$> surviving service min_qubits) eqn:E.
  - by rewrite scan_preferred_nil in H.
  - by rewrite H.
Qed.

Lemma select_best_qpu_no_match service prefs min_qubits c0 cs :
  scan_preferred (truthy_list prefs) (info_of <$> surviving service min_qubits)
  = None ->
  surviving service min_qubits = c0 :: cs ->
  select_best_qpu service prefs min_qubits
  = Return (min_from queue_depth c0 cs).
Proof.
  intros H Hs. unfold select_best_qpu. rewrite available_qpus_surviving.
  rewrite Hs in *. simpl in *. rewrite H. simpl.
  unfold mbind, result_bind, bind. by rewrite min_from_info.
Qed.

Lemma select_best_qpu_Return_surviving service prefs min_qubits b :
  select_best_qpu service prefs min_qubits = Return b ->
  b ∈ surviving service min_qubits.
Proof.
  destruct (surviving service min_qubits) as [|c0 cs] eqn:Hs.
  - by rewrite select_best_qpu_empty.
  - destruct (scan_preferred (truthy_list prefs)
                (info_of <$> surviving service min_qubits)) as [info|] eqn:E.
    + rewrite (select_best_qpu_match _ _ _ _ E). intros [= <-].
      apply scan_preferred_Some in E as [Hin _].
      apply list_elem_of_fmap in Hin as (x & -> & Hx). by rewrite <- Hs.
    + rewrite (select_best_qpu_no_match _ _ _ _ _ E Hs). intros [= <-].
      apply min_from_elem.
Qed.

Lemma select_best_qpu_unmatched_min service prefs min_qubits :
  scan_preferred (truthy_list prefs) (info_of <$> surviving service min_qubits)
  = None ->
  surviving service min_qubits <> [] ->
  exists b,
    select_best_qpu service prefs min_qubits = Return b
    /\ b ∈ surviving service min_qubits
    /\ forall c, c ∈ surviving service min_qubits ->
         queue_depth b <= queue_depth c.
Proof.
  intros Hscan Hne.
  destruct (surviving service min_qubits) as [|c0 cs] eqn:Hs; [done|].
  exists (min_from queue_depth c0 cs). split; [|split].
  - apply select_best_qpu_no_match; [by rewrite Hs | done].
  - apply min_from_elem.
  - intros c Hc. by apply min_from_le.
Qed.

(** What [get_qiskit_service] raises when the direct connection and the
    connection after saving the account both fail: the connection error. *)
Lemma get_qiskit_service_connection_error
    (Accounts : Type) connect save_account dotenv environ (saved : Accounts)
    api_key instance e1 saved' e2 :
  load_ibm_credentials dotenv environ = Return (api_key, instance) ->
  connect saved "ibm_quantum" instance = Raise e1 ->
  is_Exception e1 = true ->
  save_account saved "ibm_quantum" api_key instance true = Return saved' ->
  connect saved' "ibm_quantum" instance = Raise e2 ->
  is_Exception e2 = true ->
  get_qiskit_service Accounts connect save_account dotenv environ saved
  = Raise (Exn Exception (connection_message e2)).
Proof.
  intros Hc H1 He1 Hs H2 He2. unfold get_qiskit_service.
  rewrite Hc. simpl. unfold mbind, result_bind, bind, try_except_Exception.
  by rewrite H1, He1, Hs, H2, He2.
Qed.

(** ** The claims about [select_best_qpu] *)

(** C1. When some preferred name, scanned in order, equals the name of a
    surviving candidate, [select_best_qpu] returns the first candidate that
    carries the first such name.  Nothing is asked of queue depths: the
    answer is the same when another candidate has a shorter queue. *)
Theorem select_best_qpu_prefers_first_match
    service min_qubits prefs_before p prefs_after cands_before b cands_after :
  surviving service min_qubits = cands_before ++ b :: cands_after ->
  name b = p ->
  (forall c, c ∈ cands_before -> name c <> p) ->
  (forall p', p' ∈ prefs_before ->
     forall c, c ∈ surviving service min_qubits -> name c <> p') ->
  select_best_qpu service (Some (prefs_before ++ p :: prefs_after)) min_qubits
  = Return b.
Proof.
  intros Hs Hb Hfirst Hnone.
  change b with (qpu_backend (info_of b)).
  apply select_best_qpu_match. simpl.
  rewrite scan_preferred_app_none by exact Hnone. simpl.
  by rewrite Hs, find_named_first.
Qed.

(** The scenario of the specification: [ibm_real2] is preferred and taken
    although [ibm_real3] survives with a strictly shorter queue. *)
Lemma select_best_qpu_prefers_first_match_witness :
  select_best_qpu (catalogue [ibm_real2; ibm_real3])
    (Some ["ibm_fake1"; "ibm_real2"]) 2 = Return ibm_real2
  /\ ibm_real3 ∈ surviving (catalogue [ibm_real2; ibm_real3]) 2
  /\ queue_depth ibm_real3 < queue_depth ibm_real2.
Proof.
  split; [|split; [right; left | reflexivity]].
  apply (select_best_qpu_prefers_first_match
           (catalogue [ibm_real2; ibm_real3]) 2
           ["ibm_fake1"] "ibm_real2" [] [] ibm_real2 [ibm_real3]).
  - reflexivity.
  - reflexivity.
  - intros c Hc. inversion Hc.
  - intros p' Hp c Hc.
    apply list_elem_of_singleton in Hp. subst p'.
    apply elem_of_cons in Hc as [->|Hc]; [discriminate|].
    apply list_elem_of_singleton in Hc. subst c. discriminate.
Defined.

(** C2. A backend returned by [select_best_qpu] comes from the catalogue,
    is real hardware, has at least [min_qubits] qubits and is operational:
    the flag the selector reads is true and the status never reports
    [false], whatever the preference list holds. *)
Theorem select_best_qpu_sound service prefs min_qubits b :
  select_best_qpu service prefs min_qubits = Return b ->
  b ∈ backends service
  /\ simulator b = Some false
  /\ min_qubits <= num_qubits b
  /\ operational_or_default (status b) = true
  /\ operational (status b) <> Some false.
Proof.
  intros H. apply select_best_qpu_Return_surviving in H.
  apply surviving_elem in H as [Hin Hsurv].
  apply survives_inv in Hsurv as (Hsim & Hq & Hop).
  repeat split; try done.
  intros Hf. unfold operational_or_default in Hop. by rewrite Hf in Hop.
Qed.

Lemma select_best_qpu_sound_witness :
  ibm_real3 ∈ backends (catalogue [ibm_tiny1; ibm_real2; ibm_real3])
  /\ simulator ibm_real3 = Some false
  /\ 5 <= num_qubits ibm_real3
  /\ operational_or_default (status ibm_real3) = true
  /\ operational (status ibm_real3) <> Some false.
Proof.
  apply (select_best_qpu_sound (catalogue [ibm_tiny1; ibm_real2; ibm_real3])
           (Some ["ibm_tiny1"]) 5 ibm_real3).
  reflexivity.
Defined.

(** C3. When the preference list is [None], empty, or names no surviving
    candidate, and some candidate survives, [select_best_qpu] returns a
    surviving candidate whose queue depth is minimal among all surviving
    candidates. *)
Theorem select_best_qpu_min_queue service prefs min_qubits :
  prefs = None \/ prefs = Some []
  \/ (forall p, p ∈ truthy_list prefs ->
        forall c, c ∈ surviving service min_qubits -> name c <> p) ->
  surviving service min_qubits <> [] ->
  exists b,
    select_best_qpu service prefs min_qubits = Return b
    /\ b ∈ surviving service min_qubits
    /\ forall c, c ∈ surviving service min_qubits ->
         queue_depth b <= queue_depth c.
Proof.
  intros Hprefs Hne. apply select_best_qpu_unmatched_min; [|done].
  destruct Hprefs as [-> | [-> | Hno]]; [done | done |].
  by apply scan_preferred_none.
Qed.

Lemma select_best_qpu_min_queue_witness :
  exists b,
    select_best_qpu (catalogue [ibm_real2; ibm_untyped; ibm_real3])
      (Some ["ibm_fake1"; "ibm_untyped"]) 2 = Return b
    /\ b ∈ surviving (catalogue [ibm_real2; ibm_untyped; ibm_real3]) 2
    /\ forall c, c ∈ surviving (catalogue [ibm_real2; ibm_untyped; ibm_real3]) 2 ->
         queue_depth b <= queue_depth c.
Proof.
  apply (select_best_qpu_min_queue
           (catalogue [ibm_real2; ibm_untyped; ibm_real3])
           (Some ["ibm_fake1"; "ibm_untyped"]) 2).
  - right. right. intros p Hp c Hc.
    apply elem_of_cons in Hc as [->|Hc];
      [|apply list_elem_of_singleton in Hc; subst c];
      (apply elem_of_cons in Hp as [->|Hp];
       [|apply list_elem_of_singleton in Hp; subst p]); discriminate.
  - discriminate.
Defined.

(** C4. When no backend survives the filter, [select_best_qpu] raises a
    [ValueError] whose message contains [str(min_qubits)]; it differs from
    the connection error of [get_qiskit_service], which is a plain
    [Exception]. *)
Theorem select_best_qpu_no_candidate service prefs min_qubits :
  surviving service min_qubits = [] ->
  exists e,
    select_best_qpu service prefs min_qubits = Raise e
    /\ exn_cls e = ValueError
    /\ mentions (str_int min_qubits) (exn_msg e)
    /\ forall save_error, e <> Exn Exception (connection_message save_error).
Proof.
  intros Hs. eexists. split; [by apply select_best_qpu_empty|].
  split; [done|]. split; [|done].
  by exists "Nenhum QPU operacional encontrado com pelo menos ",
    (" qubits." +:+ nl +:+
     "Verifique seu acesso em: https://quantum.ibm.com/").
Qed.

(** The scenario of the specification: every backend reports two qubits
    and five are asked for; the message mentions "5". *)
Lemma select_best_qpu_no_candidate_witness :
  exists e,
    select_best_qpu (catalogue [ibm_tiny1; ibm_tiny2])
      (Some ["ibm_tiny1"]) 5 = Raise e
    /\ exn_cls e = ValueError
    /\ mentions "5" (exn_msg e)
    /\ forall save_error, e <> Exn Exception (connection_message save_error).
Proof.
  apply (select_best_qpu_no_candidate (catalogue [ibm_tiny1; ibm_tiny2])
           (Some ["ibm_tiny1"]) 5).
  reflexivity.
Defined.

(** C10. Missing attributes.  (1) A backend without [simulator] is left out
    of [list_available_qpus] and of the candidates, and is never returned.
    (2) A hardware backend with enough qubits whose status has no
    [operational] is a candidate, and is returned when it is the whole
    catalogue.  (3) A candidate whose status has no [pending_jobs] has queue
    depth 0; when no preference matches, the backend returned has queue
    depth at most 0 and so is never one that reports a positive queue, and
    against one such rival the backend without the attribute is returned,
    whichever comes first in the catalogue. *)
Theorem select_best_qpu_missing_attributes :
  (forall service prefs min_qubits b,
     simulator b = None ->
     (b ∉ list_available_qpus service)
     /\ (b ∉ surviving service min_qubits)
     /\ select_best_qpu service prefs min_qubits <> Return b)
  /\ (forall service min_qubits b,
        b ∈ backends service ->
        simulator b = Some false ->
        min_qubits <= num_qubits b ->
        operational (status b) = None ->
        b ∈ surviving service min_qubits
        /\ forall prefs jobs,
             select_best_qpu {| backends := [b]; job := jobs |} prefs min_qubits
             = Return b)
  /\ (forall service prefs min_qubits b,
        b ∈ surviving service min_qubits ->
        pending_jobs (status b) = None ->
        (forall p, p ∈ truthy_list prefs ->
           forall c, c ∈ surviving service min_qubits -> name c <> p) ->
        queue_depth b = 0
        /\ exists w,
             select_best_qpu service prefs min_qubits = Return w
             /\ queue_depth w <= 0
             /\ forall c q, pending_jobs (status c) = Some q -> 0 < q -> w <> c)
  /\ (forall min_qubits b c q jobs,
        survives min_qubits b = true ->
        survives min_qubits c = true ->
        pending_jobs (status b) = None ->
        pending_jobs (status c) = Some q ->
        0 < q ->
        select_best_qpu {| backends := [b; c]; job := jobs |} None min_qubits
        = Return b
        /\ select_best_qpu {| backends := [c; b]; job := jobs |} None min_qubits
           = Return b).
Proof.
  split; [|split; [|split]].
  - intros service prefs min_qubits b Hsim.
    assert (Hhw : is_real_hardware b = false)
      by (unfold is_real_hardware; by rewrite Hsim).
    assert (Hns : b ∉ surviving service min_qubits).
    { intros Hin. apply surviving_elem in Hin as [_ Hin].
      apply survives_inv in Hin as [Hin _]. congruence. }
    split; [|split; [done|]].
    + unfold list_available_qpus.
      induction (backends service) as [|x xs IH]; simpl; [by inversion 1|].
      destruct (is_real_hardware x) eqn:Hx; [|done].
      intros Hin. apply elem_of_cons in Hin as [->|Hin]; [congruence|done].
    + intros Hret. by apply select_best_qpu_Return_surviving in Hret.
  - intros service min_qubits b Hin Hsim Hq Hop.
    assert (Hsurv : survives min_qubits b = true).
    { unfold survives, is_real_hardware, operational_or_default.
      rewrite Hsim, Hop. simpl. rewrite !andb_true_r.
      apply Z.geb_le. lia. }
    split; [by apply surviving_elem|].
    intros prefs jobs.
    assert (Hs : surviving {| backends := [b]; job := jobs |} min_qubits = [b])
      by (unfold surviving; simpl; by rewrite Hsurv).
    destruct (scan_preferred (truthy_list prefs)
                (info_of <$> surviving {| backends := [b]; job := jobs |}
                               min_qubits)) as [info|] eqn:E.
    + rewrite (select_best_qpu_match _ _ _ _ E).
      apply scan_preferred_Some in E as [Hi _]. rewrite Hs in Hi.
      apply list_elem_of_singleton in Hi. by subst info.
    + by rewrite (select_best_qpu_no_match _ _ _ _ _ E Hs).
  - intros service prefs min_qubits b Hin Hpend Hno.
    assert (Hb : queue_depth b = 0)
      by (unfold queue_depth, pending_or_default; by rewrite Hpend).
    split; [done|].
    destruct (select_best_qpu_unmatched_min service prefs min_qubits)
      as (w & Hw & _ & Hmin).
    { by apply scan_preferred_none. }
    { intros Hnil. rewrite Hnil in Hin. inversion Hin. }
    exists w. specialize (Hmin b Hin). rewrite Hb in Hmin.
    split; [done|]. split; [done|].
    intros c q Hc Hq ->.
    unfold queue_depth, pending_or_default in Hmin. rewrite Hc in Hmin. lia.
  - intros min_qubits b c q jobs Hsb Hsc Hb Hc Hq.
    assert (Hqb : queue_depth b = 0)
      by (unfold queue_depth, pending_or_default; by rewrite Hb).
    assert (Hqc : queue_depth c = q)
      by (unfold queue_depth, pending_or_default; by rewrite Hc).
    split.
    + rewrite (select_best_qpu_no_match _ None min_qubits b [c]).
      * simpl. rewrite Hqb, Hqc.
        destruct (Z.ltb_spec q 0); [lia|done].
      * simpl. done.
      * unfold surviving. simpl. by rewrite Hsb, Hsc.
    + rewrite (select_best_qpu_no_match _ None min_qubits c [b]).
      * simpl. rewrite Hqb, Hqc.
        destruct (Z.ltb_spec 0 q); [done|lia].
      * simpl. done.
      * unfold surviving. simpl. by rewrite Hsb, Hsc.
Qed.

Lemma select_best_qpu_missing_attributes_witness :
  ((ibm_untyped ∉ list_available_qpus (catalogue [ibm_untyped; ibm_real2]))
   /\ (ibm_untyped ∉ surviving (catalogue [ibm_untyped; ibm_real2]) 2)
   /\ select_best_qpu (catalogue [ibm_untyped; ibm_real2])
        (Some ["ibm_untyped"]) 2 <> Return ibm_untyped)
  /\ (ibm_silent ∈ surviving (catalogue [ibm_real2; ibm_silent]) 2
      /\ forall prefs jobs,
           select_best_qpu {| backends := [ibm_silent]; job := jobs |} prefs 2
           = Return ibm_silent)
  /\ (queue_depth ibm_silent = 0
      /\ exists w,
           select_best_qpu (catalogue [ibm_real2; ibm_silent]) None 2 = Return w
           /\ queue_depth w <= 0
           /\ forall c q, pending_jobs (status c) = Some q -> 0 < q -> w <> c)
  /\ (select_best_qpu {| backends := [ibm_silent; ibm_real2]; job := no_jobs |}
        None 2 = Return ibm_silent
      /\ select_best_qpu {| backends := [ibm_real2; ibm_silent]; job := no_jobs |}
           None 2 = Return ibm_silent).
Proof.
  pose proof select_best_qpu_missing_attributes as (H1 & H2 & H3 & H4).
  split; [|split; [|split]].
  - apply (H1 (catalogue [ibm_untyped; ibm_real2]) (Some ["ibm_untyped"]) 2
             ibm_untyped). reflexivity.
  - apply (H2 (catalogue [ibm_real2; ibm_silent]) 2 ibm_silent).
    + right. left.
    + reflexivity.
    + simpl. lia.
    + reflexivity.
  - apply (H3 (catalogue [ibm_real2; ibm_silent]) None 2 ibm_silent).
    + right. left.
    + reflexivity.
    + intros p Hp. inversion Hp.
  - apply (H4 2 ibm_silent ibm_real2 9 no_jobs); reflexivity.
Defined.

(** ** [analyze_results] *)

Lemma sum_values_empty : sum_values ∅ = 0.
Proof. unfold sum_values. by rewrite map_fold_empty. Qed.

Lemma sum_values_insert (counts : Counts) state count :
  counts !! state = None ->
  sum_values (<[state:=count]> counts) = sum_values counts + count.
Proof.
  intros Hnone. unfold sum_values.
  rewrite map_fold_insert_L; [done| |done].
  intros. lia.
Qed.

Lemma sum_values_nonneg (counts : Counts) :
  (forall state count, counts !! state = Some count -> 0 <= count) ->
  0 <= sum_values counts.
Proof.
  induction counts as [|state count counts Hnone IH] using map_ind; intros Hpos.
  - by rewrite sum_values_empty.
  - rewrite sum_values_insert by done.
    assert (0 <= count) by (apply (Hpos state); by rewrite lookup_insert_eq).
    assert (0 <= sum_values counts); [|lia].
    apply IH. intros s c Hs. apply (Hpos s).
    rewrite lookup_insert_ne; [done|]. intros ->. congruence.
Qed.

Lemma sum_values_lookup_le (counts : Counts) state count :
  (forall s c, counts !! s = Some c -> 0 <= c) ->
  counts !! state = Some count ->
  count <= sum_values counts.
Proof.
  intros Hpos Hlook.
  rewrite <- (insert_delete_id counts state count Hlook).
  rewrite sum_values_insert by apply lookup_delete_eq.
  assert (0 <= sum_values (delete state counts)); [|lia].
  apply sum_values_nonneg. intros s c Hs.
  apply lookup_delete_Some in Hs as [_ Hs]. by apply (Hpos s).
Qed.

Lemma get_default_bounds (counts : Counts) expected_state :
  (forall s c, counts !! s = Some c -> 0 <= c) ->
  0 <= default 0 (counts !! expected_state) <= sum_values counts.
Proof.
  intros Hpos. destruct (counts !! expected_state) as [c|] eqn:E; simpl.
  - split; [by apply (Hpos expected_state)|by apply (sum_values_lookup_le _ expected_state)].
  - split; [done|by apply sum_values_nonneg].
Qed.

Lemma true_div_pos a b :
  0 < b -> true_div a b = Return (inject_Z a / inject_Z b)%Q.
Proof.
  intros Hb. unfold true_div. destruct (Z.eqb_spec b 0); [lia|done].
Qed.

Lemma quotient_as_fraction a b :
  0 < b -> (inject_Z a / inject_Z b == a # Z.to_pos b)%Q.
Proof.
  intros Hb. destruct b as [|p|p]; try lia.
  unfold Qeq, Qdiv, Qinv, Qmult, inject_Z. simpl. lia.
Qed.

Lemma quotient_bounds a b :
  0 <= a <= b -> 0 < b ->
  (0 <= inject_Z a / inject_Z b)%Q /\ (inject_Z a / inject_Z b <= 1)%Q.
Proof.
  intros [Ha Hab] Hb.
  assert (Hb' : (0 < inject_Z b)%Q) by (rewrite (Zlt_Qlt 0 b) in Hb; exact Hb).
  split.
  - apply Qle_shift_div_l; [done|]. rewrite Qmult_0_l.
    rewrite (Zle_Qle 0 a) in Ha. exact Ha.
  - apply Qle_shift_div_r; [done|]. rewrite Qmult_1_l.
    by rewrite <- Zle_Qle.
Qed.

(** C5. For a histogram of non-negative counts with a positive total,
    [analyze_results] returns; the fidelity is the fraction
    [counts.get(expected_state, 0) / total_shots] and lies in [0, 1]. *)
Theorem analyze_results_fidelity (counts : Counts) backend_name expected_state :
  (forall state count, counts !! state = Some count -> 0 <= count) ->
  0 < sum_values counts ->
  exists r,
    analyze_results counts backend_name expected_state = Return r
    /\ total_shots r = sum_values counts
    /\ (fidelity r == default 0%Z (counts !! expected_state)
                      # Z.to_pos (sum_values counts))%Q
    /\ (0 <= fidelity r)%Q /\ (fidelity r <= 1)%Q.
Proof.
  intros Hpos Htotal. unfold analyze_results.
  rewrite true_div_pos by done. eexists. split; [reflexivity|]. simpl.
  split; [done|]. split; [by apply quotient_as_fraction|].
  apply quotient_bounds; [|done]. by apply get_default_bounds.
Qed.

Lemma analyze_results_fidelity_witness :
  exists r,
    analyze_results scenario_counts "ibm_real2" "11" = Return r
    /\ total_shots r = 1000
    /\ (fidelity r == 820 # 1000)%Q
    /\ (0 <= fidelity r)%Q /\ (fidelity r <= 1)%Q.
Proof.
  apply (analyze_results_fidelity scenario_counts "ibm_real2" "11").
  - apply (bool_decide_unpack
             (map_Forall (fun _ count => 0 <= count) scenario_counts)).
    vm_compute. exact I.
  - vm_compute. reflexivity.
Defined.

(** C6, as the code has it.  A histogram whose counts sum to 0 makes
    [analyze_results] raise [ZeroDivisionError]: the quotient is taken
    without a test of the divisor and no fidelity is returned. *)
Theorem analyze_results_zero_shots (counts : Counts) backend_name expected_state :
  sum_values counts = 0 ->
  analyze_results counts backend_name expected_state
  = Raise (Exn ZeroDivisionError "division by zero").
Proof.
  intros Hzero. unfold analyze_results, true_div. by rewrite Hzero.
Qed.

Lemma analyze_results_zero_shots_witness :
  analyze_results zero_counts "ibm_real2" "11"
  = Raise (Exn ZeroDivisionError "division by zero").
Proof.
  apply (analyze_results_zero_shots zero_counts "ibm_real2" "11").
  vm_compute. reflexivity.
Defined.

(** C6, as stated, fails: on a histogram whose counts sum to 0 no fidelity,
    and in particular not the fidelity 0, is returned. *)
Lemma analyze_results_zero_shots_not_guarded :
  sum_values zero_counts = 0
  /\ ~ exists r,
         analyze_results zero_counts "ibm_real2" "11" = Return r
         /\ (fidelity r == 0)%Q.
Proof.
  split; [by vm_compute|].
  intros (r & Hr & _). vm_compute in Hr. discriminate.
Qed.

Lemma interpret_excellent fid : interpret fid = Excellent <-> (0.80 <= fid)%Q.
Proof.
  unfold interpret. rewrite <- Qle_bool_iff.
  destruct (Qle_bool 0.80 fid); [done|].
  split; [|done]. by repeat case_match.
Qed.

Lemma Qle_bool_false a b : Qle_bool a b = false <-> (b < a)%Q.
Proof.
  split.
  - intros H. apply Qnot_le_lt. rewrite <- Qle_bool_iff. by rewrite H.
  - intros H. destruct (Qle_bool a b) eqn:E; [|done].
    apply Qle_bool_iff in E. by apply Qlt_not_le in H.
Qed.

Lemma interpret_good fid :
  interpret fid = Good <-> (0.60 <= fid)%Q /\ (fid < 0.80)%Q.
Proof.
  unfold interpret. rewrite <- Qle_bool_iff, <- Qle_bool_false.
  destruct (Qle_bool 0.80 fid); [by intuition|].
  destruct (Qle_bool 0.60 fid); [by intuition|].
  split; [|by intuition]. by repeat case_match.
Qed.

Lemma interpret_moderate fid :
  interpret fid = Moderate <-> (0.40 <= fid)%Q /\ (fid < 0.60)%Q.
Proof.
  unfold interpret. rewrite <- Qle_bool_iff, <- Qle_bool_false.
  destruct (Qle_bool 0.80 fid) eqn:E80.
  - split; [done|]. intros [_ H60]. apply Qle_bool_iff in E80.
    apply Qle_bool_false in H60. exfalso.
    apply (Qlt_irrefl fid). eapply Qlt_le_trans; [exact H60|].
    eapply Qle_trans; [|exact E80]. done.
  - destruct (Qle_bool 0.60 fid); [by intuition|].
    destruct (Qle_bool 0.40 fid); by intuition.
Qed.

Lemma interpret_poor fid : interpret fid = Poor <-> (fid < 0.40)%Q.
Proof.
  unfold interpret. rewrite <- Qle_bool_false.
  destruct (Qle_bool 0.80 fid) eqn:E80;
    [|destruct (Qle_bool 0.60 fid) eqn:E60];
    [| |destruct (Qle_bool 0.40 fid) eqn:E40; by intuition].
  - split; [done|]. intros H40. apply Qle_bool_iff in E80.
    apply Qle_bool_false in H40. exfalso.
    apply (Qlt_irrefl fid). eapply Qlt_le_trans; [exact H40|].
    eapply Qle_trans; [|exact E80]. done.
  - split; [done|]. intros H40. apply Qle_bool_iff in E60.
    apply Qle_bool_false in H40. exfalso.
    apply (Qlt_irrefl fid). eapply Qlt_le_trans; [exact H40|].
    eapply Qle_trans; [|exact E60]. done.
Qed.

Lemma analyze_results_band_interpret (counts : Counts) backend_name
    expected_state r :
  analyze_results counts backend_name expected_state = Return r ->
  band r = interpret (fidelity r).
Proof.
  unfold analyze_results.
  destruct (true_div _ _) as [fid|e]; simpl; [|done]. by intros [= <-].
Qed.

(** C7. The band printed for a returned fidelity is "excellent" exactly
    from 0.80, "good" exactly in [0.60, 0.80), "moderate" exactly in
    [0.40, 0.60) and "poor" exactly below 0.40; the histogram of the
    specification gives fidelity 0.82 and the band "excellent". *)
Theorem analyze_results_band :
  (forall (counts : Counts) backend_name expected_state r,
     analyze_results counts backend_name expected_state = Return r ->
     (band r = Excellent <-> (0.80 <= fidelity r)%Q)
     /\ (band r = Good <-> (0.60 <= fidelity r)%Q /\ (fidelity r < 0.80)%Q)
     /\ (band r = Moderate <-> (0.40 <= fidelity r)%Q /\ (fidelity r < 0.60)%Q)
     /\ (band r = Poor <-> (fidelity r < 0.40)%Q))
  /\ (forall backend_name,
        exists r,
          analyze_results scenario_counts backend_name "11" = Return r
          /\ total_shots r = 1000
          /\ (fidelity r == 0.82)%Q
          /\ band r = Excellent).
Proof.
  split.
  - intros counts backend_name expected_state r Hr.
    rewrite (analyze_results_band_interpret _ _ _ _ Hr).
    split; [apply interpret_excellent|].
    split; [apply interpret_good|].
    split; [apply interpret_moderate|apply interpret_poor].
  - intros backend_name. eexists. split; [by vm_compute|].
    split; [done|]. split; done.
Qed.

Lemma analyze_results_band_witness :
  exists r,
    analyze_results scenario_counts "ibm_real2" "11" = Return r
    /\ (band r = Excellent <-> (0.80 <= fidelity r)%Q)
    /\ (band r = Good <-> (0.60 <= fidelity r)%Q /\ (fidelity r < 0.80)%Q)
    /\ (band r = Moderate <-> (0.40 <= fidelity r)%Q /\ (fidelity r < 0.60)%Q)
    /\ (band r = Poor <-> (fidelity r < 0.40)%Q).
Proof.
  eexists. split; [vm_compute; reflexivity|].
  apply (proj1 analyze_results_band scenario_counts "ibm_real2" "11").
  vm_compute. reflexivity.
Defined.

(** ** [load_ibm_credentials] *)

Lemma not_str_missing environ key :
  not_str (getenv environ key) = true <-> missing environ key.
Proof.
  unfold missing, getenv, not_str.
  destruct (environ !! key) as [[|a s]|]; split; intros H; try done.
  - by right.
  - destruct H as [H|H]; discriminate.
  - by left.
Qed.

Lemma not_str_present environ key value :
  environ !! key = Some value -> value <> "" ->
  not_str (getenv environ key) = false.
Proof.
  unfold getenv. intros -> Hne. by destruct value.
Qed.

(** C8. On the environment left by [load_dotenv]: when a variable is
    missing, [load_ibm_credentials] raises a [ValueError] whose message
    names a missing variable (the API key when it is missing, else the
    instance); when both are present and non-empty it returns the pair of
    values as read. *)
Theorem load_ibm_credentials_spec dotenv environ :
  let env := load_dotenv dotenv environ in
  (missing env "IBM_API_KEY" ->
   exists e, load_ibm_credentials dotenv environ = Raise e
             /\ exn_cls e = ValueError
             /\ mentions "IBM_API_KEY" (exn_msg e))
  /\ (~ missing env "IBM_API_KEY" -> missing env "QISKIT_IBM_INSTANCE" ->
      exists e, load_ibm_credentials dotenv environ = Raise e
                /\ exn_cls e = ValueError
                /\ mentions "QISKIT_IBM_INSTANCE" (exn_msg e))
  /\ (forall api_key instance,
        env !! "IBM_API_KEY" = Some api_key -> api_key <> "" ->
        env !! "QISKIT_IBM_INSTANCE" = Some instance -> instance <> "" ->
        load_ibm_credentials dotenv environ = Return (api_key, instance)).
Proof.
  intros env. unfold load_ibm_credentials. fold env.
  split; [|split].
  - intros Hk. apply not_str_missing in Hk. rewrite Hk.
    eexists. split; [reflexivity|]. split; [done|].
    by exists "", (" não encontrada no .env" +:+ nl +:+
                  "Configure sua API key em: https://quantum.ibm.com/").
  - intros Hk Hi. apply not_str_missing in Hi.
    destruct (not_str (getenv env "IBM_API_KEY")) eqn:E.
    { by apply not_str_missing in E. }
    rewrite Hi. eexists. split; [reflexivity|]. split; [done|].
    by exists "", (" não encontrada no .env" +:+ nl +:+
                  "Configure seu CRN da instância em: https://quantum.ibm.com/").
  - intros api_key instance Hk Hkne Hi Hine.
    rewrite (not_str_present _ _ _ Hk Hkne), (not_str_present _ _ _ Hi Hine).
    unfold getenv. by rewrite Hk, Hi.
Qed.

Lemma load_ibm_credentials_spec_witness :
  (exists e, load_ibm_credentials ∅ ∅ = Raise e
             /\ exn_cls e = ValueError
             /\ mentions "IBM_API_KEY" (exn_msg e))
  /\ (exists e, load_ibm_credentials env_no_instance ∅ = Raise e
                /\ exn_cls e = ValueError
                /\ mentions "QISKIT_IBM_INSTANCE" (exn_msg e))
  /\ load_ibm_credentials env_complete ∅ = Return ("k3y", "crn:v1:q").
Proof.
  split; [|split].
  - apply (proj1 (load_ibm_credentials_spec ∅ ∅)). by left.
  - apply (proj1 (proj2 (load_ibm_credentials_spec env_no_instance ∅))).
    + intros [H|H]; vm_compute in H; discriminate.
    + right. vm_compute. reflexivity.
  - apply (proj2 (proj2 (load_ibm_credentials_spec env_complete ∅))).
    + vm_compute. reflexivity.
    + discriminate.
    + vm_compute. reflexivity.
    + discriminate.
Defined.

(** ** [retrieve_job] *)

(** C9. With a service at hand, [retrieve_job] looks the job up and asks
    its status.  A status named [DONE] makes it fetch the histogram and
    return it; any other status makes it return [None] without raising; an
    exception raised by the lookup, by the status query or by the fetch
    reaches the caller unchanged. *)
Theorem retrieve_job_spec (Accounts : Type) connect save_account
    dotenv environ (saved : Accounts) job_id service :
  let retrieved :=
    retrieve_job Accounts connect save_account dotenv environ saved
      job_id (Some service) in
  (forall e, job service job_id = Raise e -> retrieved = Raise e)
  /\ (forall j, job service job_id = Return j ->
        (forall e, job_status j = Raise e -> retrieved = Raise e)
        /\ (forall st, job_status j = Return st ->
              (status_name st = "DONE" ->
               (forall counts, job_result j = Return counts ->
                  retrieved = Return (Some counts))
               /\ (forall e, job_result j = Raise e -> retrieved = Raise e))
              /\ (status_name st <> "DONE" -> retrieved = Return None))).
Proof.
  intros retrieved. subst retrieved. unfold retrieve_job. simpl.
  unfold mbind, result_bind, bind, try_except_Exception.
  split.
  - intros e ->. by destruct (is_Exception e).
  - intros j ->. split.
    + intros e ->. by destruct (is_Exception e).
    + intros st ->. split.
      * intros Hdone. apply String.eqb_eq in Hdone. rewrite Hdone. split.
        -- by intros counts ->.
        -- intros e ->. by destruct (is_Exception e).
      * intros Hnot. apply String.eqb_neq in Hnot. by rewrite Hnot.
Qed.

Lemma retrieve_job_spec_witness :
  retrieve_job unit connect_always save_always ∅ ∅ tt "job-done"
    (Some job_service) = Return (Some scenario_counts)
  /\ retrieve_job unit connect_always save_always ∅ ∅ tt "job-queued"
       (Some job_service) = Return None
  /\ retrieve_job unit connect_always save_always ∅ ∅ tt "job-lost"
       (Some job_service)
     = Raise (Exn (SdkError "IBMRuntimeError") "status failed")
  /\ retrieve_job unit connect_always save_always ∅ ∅ tt "job-unknown"
       (Some job_service)
     = Raise (Exn (SdkError "IBMRuntimeError") "Job not found: job-unknown").
Proof.
  split; [|split; [|split]].
  - destruct (retrieve_job_spec unit connect_always save_always ∅ ∅ tt
                "job-done" job_service) as [_ H].
    destruct (H done_job eq_refl) as [_ H'].
    destruct (H' {| status_name := "DONE" |} eq_refl) as [Hdone _].
    apply (proj1 (Hdone eq_refl)). reflexivity.
  - destruct (retrieve_job_spec unit connect_always save_always ∅ ∅ tt
                "job-queued" job_service) as [_ H].
    destruct (H queued_job eq_refl) as [_ H'].
    destruct (H' {| status_name := "QUEUED" |} eq_refl) as [_ Hother].
    apply Hother. discriminate.
  - destruct (retrieve_job_spec unit connect_always save_always ∅ ∅ tt
                "job-lost" job_service) as [_ H].
    destruct (H lost_job eq_refl) as [Hraise _].
    apply Hraise. reflexivity.
  - destruct (retrieve_job_spec unit connect_always save_always ∅ ∅ tt
                "job-unknown" job_service) as [Hraise _].
    apply Hraise. reflexivity.
Defined.

(** * Further properties *)

(** ** The catalogue and the selection *)

Lemma hardware_of_elem bs b :
  b ∈ hardware_of bs <-> b ∈ bs /\ simulator b = Some false.
Proof.
  induction bs as [|x bs IH]; simpl.
  - split; [by inversion 1|]. intros [H _]. inversion H.
  - unfold is_real_hardware at 1.
    destruct (simulator x) as [[|]|] eqn:Hx; simpl;
      rewrite ?elem_of_cons, IH, ?elem_of_cons.
    + split; [by intuition|]. intros [[->|Hin] Hs]; [congruence|done].
    + split; [|by intuition]. intros [->|[Hin Hs]]; [by split; [left|]|].
      by split; [right|].
    + split; [by intuition|]. intros [[->|Hin] Hs]; [congruence|done].
Qed.

Lemma hardware_of_sublist bs : hardware_of bs `sublist_of` bs.
Proof.
  induction bs as [|x bs IH]; simpl; [constructor|].
  destruct (is_real_hardware x); by constructor.
Qed.

(** X1.  [list_available_qpus] answers with exactly the backends of the
    catalogue that carry [simulator = False], in the order of the
    catalogue. *)
Theorem list_available_qpus_spec service :
  (forall b, b ∈ list_available_qpus service <->
             b ∈ backends service /\ simulator b = Some false)
  /\ list_available_qpus service `sublist_of` backends service.
Proof.
  split; [intros b; apply hardware_of_elem | apply hardware_of_sublist].
Qed.

Lemma surviving_hardware service min_qubits b :
  b ∈ surviving service min_qubits -> b ∈ list_available_qpus service.
Proof.
  intros H. apply surviving_elem in H as [Hin Hs].
  apply survives_inv in Hs as [Hsim _]. by apply hardware_of_elem.
Qed.




(** X3.  Whatever [select_best_qpu] returns is among the backends that
    [list_available_qpus] lists for the same service, and a service for
    which that list is empty makes [select_best_qpu] raise. *)
Theorem select_best_qpu_within_listing service prefs min_qubits :
  (forall b, select_best_qpu service prefs min_qubits = Return b ->
             b ∈ list_available_qpus service)
  /\ (list_available_qpus service = [] ->
      select_best_qpu service prefs min_qubits
      = Raise (Exn ValueError (no_qpu_message min_qubits))).
Proof.
  split.
  - intros b Hb. apply select_best_qpu_Return_surviving in Hb.
    by apply surviving_hardware in Hb.
  - intros Hnil. apply select_best_qpu_empty.
    destruct (surviving service min_qubits) as [|c cs] eqn:Hs; [done|].
    assert (Hc : c ∈ list_available_qpus service).
    { apply (surviving_hardware _ min_qubits). rewrite Hs. left. }
    rewrite Hnil in Hc. inversion Hc.
Qed.

Lemma select_best_qpu_within_listing_witness :
  ibm_real3 ∈ list_available_qpus (catalogue [ibm_sim; ibm_real2; ibm_real3])
  /\ select_best_qpu (catalogue [ibm_sim; ibm_untyped]) (Some ["ibm_sim"]) 2
     = Raise (Exn ValueError (no_qpu_message 2)).
Proof.
  split.
  - apply (proj1 (select_best_qpu_within_listing
                    (catalogue [ibm_sim; ibm_real2; ibm_real3])
                    (Some ["ibm_sim"]) 2)).
    reflexivity.
  - apply (proj2 (select_best_qpu_within_listing
                    (catalogue [ibm_sim; ibm_untyped]) (Some ["ibm_sim"]) 2)).
    reflexivity.
Defined.

Lemma min_from_stays {A} (key : A -> Z) best xs :
  (forall x, x ∈ xs -> key best <= key x) ->
  min_from key best xs = best.
Proof.
  induction xs as [|x xs IH]; intros Hle; simpl; [done|].
  destruct (Z.ltb_spec (key x) (key best)) as [Hlt|_].
  - assert (key best <= key x) by (apply Hle; left). lia.
  - apply IH. intros y Hy. apply Hle. by right.
Qed.

Lemma min_from_first {A} (key : A -> Z) best before b after :
  key b < key best ->
  (forall x, x ∈ before -> key b < key x) ->
  (forall x, x ∈ after -> key b <= key x) ->
  min_from key best (before ++ b :: after) = b.
Proof.
  revert best. induction before as [|x before IH]; intros best Hb Hbefore Hafter.
  - simpl. destruct (Z.ltb_spec (key b) (key best)); [|lia].
    by apply min_from_stays.
  - simpl. destruct (key x <? key best).
    + apply IH; [apply Hbefore; left| |done].
      intros y Hy. apply Hbefore. by right.
    + apply IH; [done| |done].
      intros y Hy. apply Hbefore. by right.
Qed.

(** X4.  The tie-break of the minimum-queue selection: when no preference
    matches, the candidate returned is the first one, in the order of the
    catalogue, whose queue depth is minimal. *)
Theorem select_best_qpu_first_minimum
    service prefs min_qubits before b after :
  surviving service min_qubits = before ++ b :: after ->
  (forall p, p ∈ truthy_list prefs ->
     forall c, c ∈ surviving service min_qubits -> name c <> p) ->
  (forall c, c ∈ before -> queue_depth b < queue_depth c) ->
  (forall c, c ∈ after -> queue_depth b <= queue_depth c) ->
  select_best_qpu service prefs min_qubits = Return b.
Proof.
  intros Hs Hno Hbefore Hafter.
  assert (Hscan : scan_preferred (truthy_list prefs)
                    (info_of <$> surviving service min_qubits) = None)
    by by apply scan_preferred_none.
  destruct before as [|c0 before]; simpl in Hs.
  - rewrite (select_best_qpu_no_match _ _ _ b after Hscan Hs).
    f_equal. by apply min_from_stays.
  - rewrite (select_best_qpu_no_match _ _ _ c0 (before ++ b :: after) Hscan Hs).
    f_equal. apply min_from_first; [apply Hbefore; left| |done].
    intros y Hy. apply Hbefore. by right.
Qed.

Lemma select_best_qpu_first_minimum_witness :
  select_best_qpu (catalogue [ibm_real2; ibm_tiny1; ibm_silent; ibm_tiny2])
    (Some ["ibm_fake1"]) 2 = Return ibm_tiny1.
Proof.
  apply (select_best_qpu_first_minimum
           (catalogue [ibm_real2; ibm_tiny1; ibm_silent; ibm_tiny2])
           (Some ["ibm_fake1"]) 2 [ibm_real2] ibm_tiny1 [ibm_silent; ibm_tiny2]).
  - reflexivity.
  - intros p Hp c Hc. apply list_elem_of_singleton in Hp. subst p.
    repeat (apply elem_of_cons in Hc as [->|Hc]; [discriminate|]).
    inversion Hc.
  - intros c Hc. apply list_elem_of_singleton in Hc. subst c. reflexivity.
  - intros c Hc.
    repeat (apply elem_of_cons in Hc as [->|Hc]; [discriminate|]).
    inversion Hc.
Defined.

(** ** Credentials *)

Lemma load_dotenv_idemp dotenv environ :
  load_dotenv dotenv (load_dotenv dotenv environ) = load_dotenv dotenv environ.
Proof.
  unfold load_dotenv. apply map_eq. intros key.
  rewrite !lookup_union.
  by destruct (environ !! key), (dotenv !! key).
Qed.

Lemma load_dotenv_lookup_environ dotenv environ key value :
  environ !! key = Some value ->
  load_dotenv dotenv environ !! key = Some value.
Proof.
  intros H. unfold load_dotenv. rewrite lookup_union, H.
  by destruct (dotenv !! key).
Qed.

Lemma not_str_false value :
  not_str value = false -> exists s, value = Some s /\ s <> "".
Proof.
  destruct value as [[|a s]|]; simpl; try done.
  intros _. by eexists.
Qed.

(** X5.  When [load_ibm_credentials] returns a pair, both components are
    non-empty and are the values the environment holds for the two
    variables after [load_dotenv]. *)
Theorem load_ibm_credentials_returns dotenv environ api_key instance :
  load_ibm_credentials dotenv environ = Return (api_key, instance) ->
  load_dotenv dotenv environ !! "IBM_API_KEY" = Some api_key
  /\ api_key <> ""
  /\ load_dotenv dotenv environ !! "QISKIT_IBM_INSTANCE" = Some instance
  /\ instance <> "".
Proof.
  unfold load_ibm_credentials, getenv.
  destruct (not_str (load_dotenv dotenv environ !! "IBM_API_KEY")) eqn:Ek;
    [done|].
  destruct (not_str (load_dotenv dotenv environ !! "QISKIT_IBM_INSTANCE"))
    eqn:Ei; [done|].
  apply not_str_false in Ek as (k & Hk & Hkne).
  apply not_str_false in Ei as (i & Hi & Hine).
  rewrite Hk, Hi. simpl. by intros [= <- <-].
Qed.

Lemma load_ibm_credentials_returns_witness :
  load_dotenv env_complete ∅ !! "IBM_API_KEY" = Some "k3y"
  /\ "k3y" <> ""
  /\ load_dotenv env_complete ∅ !! "QISKIT_IBM_INSTANCE" = Some "crn:v1:q"
  /\ "crn:v1:q" <> "".
Proof.
  apply (load_ibm_credentials_returns env_complete ∅ "k3y" "crn:v1:q").
  vm_compute. reflexivity.
Defined.

(** X6.  Loading the credentials again, once [load_dotenv] has extended the
    environment, gives the same answer as the first time. *)
Theorem load_ibm_credentials_again dotenv environ :
  load_ibm_credentials dotenv (load_dotenv dotenv environ)
  = load_ibm_credentials dotenv environ.
Proof.
  unfold load_ibm_credentials. by rewrite load_dotenv_idemp.
Qed.

(** X7.  A variable that the process environment already sets, be it to the
    empty string, is not taken from the [.env] file: with both variables
    set in the environment the file has no influence on the credentials. *)
Theorem load_ibm_credentials_environment_first dotenv dotenv' environ :
  is_Some (environ !! "IBM_API_KEY") ->
  is_Some (environ !! "QISKIT_IBM_INSTANCE") ->
  load_ibm_credentials dotenv environ = load_ibm_credentials dotenv' environ.
Proof.
  intros [k Hk] [i Hi]. unfold load_ibm_credentials, getenv.
  by rewrite !(load_dotenv_lookup_environ _ _ _ _ Hk),
             !(load_dotenv_lookup_environ _ _ _ _ Hi).
Qed.

Lemma load_ibm_credentials_environment_first_witness :
  load_ibm_credentials env_complete env_no_instance
  = load_ibm_credentials ∅ env_no_instance.
Proof.
  apply (load_ibm_credentials_environment_first env_complete ∅ env_no_instance).
  - vm_compute. by eexists.
  - vm_compute. by eexists.
Defined.

(** ** Connection *)

Section ConnectionProperties.

Variable Accounts : Type.
Variable connect : Accounts -> string -> string -> result Service.
Variable save_account :
  Accounts -> string -> string -> string -> bool -> result Accounts.

Local Abbreviation get_service :=
  (get_qiskit_service Accounts connect save_account).
Local Abbreviation validate :=
  (validate_connection Accounts connect save_account).

Lemma get_qiskit_service_credentials_error dotenv environ saved e :
  load_ibm_credentials dotenv environ = Raise e ->
  get_service dotenv environ saved = Raise e.
Proof. intros H. unfold get_qiskit_service. by rewrite H. Qed.

Lemma get_qiskit_service_again dotenv environ saved :
  get_service dotenv (load_dotenv dotenv environ) saved
  = get_service dotenv environ saved.
Proof.
  unfold get_qiskit_service, load_ibm_credentials.
  by rewrite load_dotenv_idemp.
Qed.

Lemma load_ibm_credentials_raises dotenv environ e :
  load_ibm_credentials dotenv environ = Raise e ->
  e = Exn ValueError api_key_message \/ e = Exn ValueError instance_message.
Proof.
  unfold load_ibm_credentials.
  destruct (not_str _); [intros [= <-]; by left|].
  destruct (not_str _); [intros [= <-]; by right|done].
Qed.

(** X8.  With valid credentials, a first connection that succeeds is the
    service returned; the account is not saved, so what [save_account]
    would do plays no part. *)
Theorem get_qiskit_service_direct dotenv environ saved api_key instance service :
  load_ibm_credentials dotenv environ = Return (api_key, instance) ->
  connect saved "ibm_quantum" instance = Return service ->
  get_service dotenv environ saved = Return service.
Proof.
  intros Hc H1. unfold get_qiskit_service. rewrite Hc. simpl.
  unfold try_except_Exception. by rewrite H1.
Qed.

(** X9.  With valid credentials, when the first connection fails with an
    [Exception], the account is saved with the API key as token and
    [overwrite=True], and a second connection that then succeeds is the
    service returned. *)
Theorem get_qiskit_service_fallback
    dotenv environ saved api_key instance e saved' service :
  load_ibm_credentials dotenv environ = Return (api_key, instance) ->
  connect saved "ibm_quantum" instance = Raise e ->
  is_Exception e = true ->
  save_account saved "ibm_quantum" api_key instance true = Return saved' ->
  connect saved' "ibm_quantum" instance = Return service ->
  get_service dotenv environ saved = Return service.
Proof.
  intros Hc H1 He Hs H2. unfold get_qiskit_service. rewrite Hc. simpl.
  unfold mbind, result_bind, bind, try_except_Exception.
  by rewrite H1, He, Hs, H2.
Qed.

(** X10.  No [Exception] of the SDK leaves [get_qiskit_service] as it is: what
    is raised is the [ValueError] of a missing credential, or a plain
    [Exception] carrying [connection_message] of the failure of the
    fallback, or an exception that is not an [Exception] (an interrupt). *)
Theorem get_qiskit_service_raises dotenv environ saved e :
  get_service dotenv environ saved = Raise e ->
  (e = Exn ValueError api_key_message \/ e = Exn ValueError instance_message)
  \/ (exists cause, is_Exception cause = true
                    /\ e = Exn Exception (connection_message cause))
  \/ is_Exception e = false.
Proof.
  unfold get_qiskit_service.
  destruct (load_ibm_credentials dotenv environ) as [[api_key instance]|e0]
    eqn:Hc; simpl.
  - unfold mbind, result_bind, bind, try_except_Exception.
    destruct (connect saved "ibm_quantum" instance) as [s|e1]; [done|].
    destruct (is_Exception e1) eqn:He1; [|intros [= <-]; by right; right].
    destruct (save_account saved "ibm_quantum" api_key instance true)
      as [saved'|e2].
    + destruct (connect saved' "ibm_quantum" instance) as [s|e3]; [done|].
      destruct (is_Exception e3) eqn:He3; intros [= <-].
      * right; left. by exists e3.
      * by right; right.
    + destruct (is_Exception e2) eqn:He2; intros [= <-].
      * right; left. by exists e2.
      * by right; right.
  - intros [= <-]. left. by apply (load_ibm_credentials_raises dotenv environ).
Qed.

(** X11.  [validate_connection] answers [True] exactly when
    [get_qiskit_service] returns a service for which
    [list_available_qpus] is not empty. *)
Theorem validate_connection_true dotenv environ saved :
  validate dotenv environ saved = Return true <->
  exists service,
    get_service dotenv environ saved = Return service
    /\ list_available_qpus service <> [].
Proof.
  unfold validate_connection. rewrite get_qiskit_service_again.
  destruct (load_ibm_credentials dotenv environ) as [cred|e0] eqn:Hc; simpl.
  - unfold mbind, result_bind, bind, try_except_Exception.
    destruct (get_service dotenv environ saved) as [service|e] eqn:Hg.
    + destruct (list_available_qpus service) eqn:Hl; split.
      * done.
      * intros (s & [= <-] & Hne). by rewrite Hl in Hne.
      * intros _. exists service. by rewrite Hl.
      * done.
    + split; [by destruct (is_Exception e)|]. by intros (s & Hs & _).
  - rewrite (get_qiskit_service_credentials_error _ _ _ _ Hc).
    unfold try_except_Exception. split.
    + by destruct (is_Exception e0).
    + by intros (s & Hs & _).
Qed.

(** X12.  [validate_connection] turns every [Exception] into the answer
    [False]; an exception can leave it only when it is not an
    [Exception]. *)
Theorem validate_connection_no_exception dotenv environ saved :
  (forall e, get_service dotenv environ saved = Raise e ->
             is_Exception e = true ->
             validate dotenv environ saved = Return false)
  /\ (forall e, validate dotenv environ saved = Raise e ->
                is_Exception e = false).
Proof.
  unfold validate_connection. rewrite get_qiskit_service_again.
  destruct (load_ibm_credentials dotenv environ) as [cred|e0] eqn:Hc; simpl.
  - unfold mbind, result_bind, bind, try_except_Exception.
    destruct (get_service dotenv environ saved) as [service|e1] eqn:Hg.
    + split; [done|]. intros e. by destruct (list_available_qpus service).
    + split.
      * intros e [= <-] He. by rewrite He.
      * intros e. destruct (is_Exception e1) eqn:He1; [done|].
        by intros [= <-].
  - rewrite (get_qiskit_service_credentials_error _ _ _ _ Hc).
    unfold try_except_Exception. split.
    + intros e [= <-] He. by rewrite He.
    + intros e. destruct (is_Exception e0) eqn:He0; [done|]. by intros [= <-].
Qed.

End ConnectionProperties.

Lemma get_qiskit_service_direct_witness :
  get_qiskit_service unit connect_always save_always env_complete ∅ tt
  = Return job_service.
Proof.
  apply (get_qiskit_service_direct unit connect_always save_always
           env_complete ∅ tt "k3y" "crn:v1:q" job_service).
  - vm_compute. reflexivity.
  - reflexivity.
Defined.

Lemma get_qiskit_service_fallback_witness :
  get_qiskit_service bool connect_saved save_flag env_complete ∅ false
  = Return job_service.
Proof.
  apply (get_qiskit_service_fallback bool connect_saved save_flag
           env_complete ∅ false "k3y" "crn:v1:q"
           (Exn (SdkError "AccountNotFoundError") "no account")
           true job_service).
  - vm_compute. reflexivity.
  - reflexivity.
  - reflexivity.
  - reflexivity.
  - reflexivity.
Defined.

Lemma get_qiskit_service_raises_witness :
  let e := Exn Exception
             (connection_message (Exn (SdkError "IBMNotAuthorizedError") "401")) in
  (e = Exn ValueError api_key_message \/ e = Exn ValueError instance_message)
  \/ (exists cause, is_Exception cause = true
                    /\ e = Exn Exception (connection_message cause))
  \/ is_Exception e = false.
Proof.
  apply (get_qiskit_service_raises unit connect_never save_always
           env_complete ∅ tt).
  vm_compute. reflexivity.
Defined.

Lemma validate_connection_true_witness :
  validate_connection unit connect_always save_always env_complete ∅ tt
  = Return true.
Proof.
  apply (proj2 (validate_connection_true unit connect_always save_always
                  env_complete ∅ tt)).
  exists job_service. split; [vm_compute; reflexivity | discriminate].
Defined.

Lemma validate_connection_no_exception_witness :
  validate_connection unit connect_never save_always env_complete ∅ tt
  = Return false.
Proof.
  apply (proj1 (validate_connection_no_exception unit connect_never save_always
                  env_complete ∅ tt)
           (Exn Exception
              (connection_message (Exn (SdkError "IBMNotAuthorizedError") "401")))).
  - vm_compute. reflexivity.
  - reflexivity.
Defined.

(** ** Retrieval *)

Section RetrievalProperties.

Variable Accounts : Type.
Variable connect : Accounts -> string -> string -> result Service.
Variable save_account :
  Accounts -> string -> string -> string -> bool -> result Accounts.


(** X13.  What [retrieve_job] returns tells the state of the job: a histogram is
    returned only for a job the service knows, whose status is named
    [DONE], and is the histogram that job holds; [None] is returned only
    for a job the service knows whose status has another name. *)
Theorem retrieve_job_returns dotenv environ saved job_id service answer :
  retrieve_job Accounts connect save_account dotenv environ saved
    job_id (Some service) = Return answer ->
  exists j st,
    job service job_id = Return j
    /\ job_status j = Return st
    /\ match answer with
       | Some counts => status_name st = "DONE" /\ job_result j = Return counts
       | None => status_name st <> "DONE"
       end.
Proof.
  unfold retrieve_job. simpl.
  unfold mbind, result_bind, bind, try_except_Exception.
  destruct (job service job_id) as [j|e] eqn:Hj;
    [|by destruct (is_Exception e)].
  destruct (job_status j) as [st|e] eqn:Hst; [|by destruct (is_Exception e)].
  destruct (String.eqb_spec (status_name st) "DONE") as [Hd|Hd].
  - destruct (job_result j) as [counts|e] eqn:Hr;
      [|by destruct (is_Exception e)].
    intros [= <-]. by exists j, st.
  - intros [= <-]. by exists j, st.
Qed.

(** X14.  Without a service, [retrieve_job] first connects: a failure to connect
    is raised as it is and no job is looked up; after a successful
    connection the answer is the one for the service obtained. *)
Theorem retrieve_job_connects dotenv environ saved job_id :
  (forall e,
     get_qiskit_service Accounts connect save_account dotenv environ saved
     = Raise e ->
     retrieve_job Accounts connect save_account dotenv environ saved
       job_id None = Raise e)
  /\ (forall service,
        get_qiskit_service Accounts connect save_account dotenv environ saved
        = Return service ->
        retrieve_job Accounts connect save_account dotenv environ saved
          job_id None
        = retrieve_job Accounts connect save_account dotenv environ saved
            job_id (Some service)).
Proof.
  unfold retrieve_job. split.
  - by intros e ->.
  - by intros service ->.
Qed.

End RetrievalProperties.

Lemma retrieve_job_returns_witness :
  exists j st,
    job job_service "job-queued" = Return j
    /\ job_status j = Return st
    /\ status_name st <> "DONE".
Proof.
  apply (retrieve_job_returns unit connect_always save_always ∅ ∅ tt
           "job-queued" job_service None).
  reflexivity.
Defined.

Lemma retrieve_job_connects_witness :
  retrieve_job unit connect_never save_always env_complete ∅ tt "job-done" None
  = Raise (Exn Exception
             (connection_message (Exn (SdkError "IBMNotAuthorizedError") "401")))
  /\ retrieve_job unit connect_always save_always env_complete ∅ tt
       "job-done" None
     = retrieve_job unit connect_always save_always env_complete ∅ tt
         "job-done" (Some job_service).
Proof.
  split.
  - apply (proj1 (retrieve_job_connects unit connect_never save_always
                    env_complete ∅ tt "job-done")).
    vm_compute. reflexivity.
  - apply (proj2 (retrieve_job_connects unit connect_always save_always
                    env_complete ∅ tt "job-done")).
    vm_compute. reflexivity.
Defined.

(** ** More on [analyze_results] *)







Lemma sum_values_two (counts : Counts) s1 s2 c1 c2 :
  (forall s c, counts !! s = Some c -> 0 <= c) ->
  s1 <> s2 ->
  counts !! s1 = Some c1 ->
  counts !! s2 = Some c2 ->
  c1 + c2 <= sum_values counts.
Proof.
  intros Hpos Hne H1 H2.
  rewrite <- (insert_delete_id counts s1 c1 H1).
  rewrite sum_values_insert by apply lookup_delete_eq.
  assert (c2 <= sum_values (delete s1 counts)); [|lia].
  apply (sum_values_lookup_le _ s2).
  - intros s c Hs. apply lookup_delete_Some in Hs as [_ Hs]. by apply (Hpos s).
  - by rewrite lookup_delete_ne.
Qed.

Lemma get_two_bounds (counts : Counts) s1 s2 :
  (forall s c, counts !! s = Some c -> 0 <= c) ->
  s1 <> s2 ->
  default 0 (counts !! s1) + default 0 (counts !! s2) <= sum_values counts.
Proof.
  intros Hpos Hne.
  destruct (counts !! s1) as [c1|] eqn:E1, (counts !! s2) as [c2|] eqn:E2; simpl.
  - by apply (sum_values_two counts s1 s2).
  - pose proof (sum_values_lookup_le counts s1 c1 Hpos E1). lia.
  - pose proof (sum_values_lookup_le counts s2 c2 Hpos E2). lia.
  - pose proof (sum_values_nonneg counts Hpos). lia.
Qed.

(** X17.  The fidelities that [analyze_results] computes from one histogram of
    non-negative counts for two different expected states add up to at
    most 1. *)
Theorem analyze_results_two_states (counts : Counts) backend_name s1 s2 :
  (forall state count, counts !! state = Some count -> 0 <= count) ->
  0 < sum_values counts ->
  s1 <> s2 ->
  exists r1 r2,
    analyze_results counts backend_name s1 = Return r1
    /\ analyze_results counts backend_name s2 = Return r2
    /\ (fidelity r1 + fidelity r2 <= 1)%Q.
Proof.
  intros Hpos Htotal Hne. unfold analyze_results.
  rewrite !true_div_pos by done. simpl.
  eexists _, _. split; [reflexivity|]. split; [reflexivity|]. simpl.
  pose proof (get_two_bounds counts s1 s2 Hpos Hne) as Hle.
  set (c1 := default 0 (counts !! s1)) in *.
  set (c2 := default 0 (counts !! s2)) in *.
  set (t := sum_values counts) in *.
  assert (Ht : (0 < inject_Z t)%Q) by (rewrite (Zlt_Qlt 0 t) in Htotal; done).
  assert (Heq : (inject_Z c1 / inject_Z t + inject_Z c2 / inject_Z t
                 == inject_Z (c1 + c2) / inject_Z t)%Q).
  { rewrite inject_Z_plus. unfold Qdiv. ring. }
  rewrite Heq. apply Qle_shift_div_r; [done|]. rewrite Qmult_1_l.
  by rewrite <- Zle_Qle.
Qed.

Lemma analyze_results_two_states_witness :
  exists r1 r2,
    analyze_results scenario_counts "ibm_real2" "11" = Return r1
    /\ analyze_results scenario_counts "ibm_real2" "00" = Return r2
    /\ (fidelity r1 + fidelity r2 <= 1)%Q.
Proof.
  apply (analyze_results_two_states scenario_counts "ibm_real2" "11" "00").
  - apply (bool_decide_unpack
             (map_Forall (fun _ count => 0 <= count) scenario_counts)).
    vm_compute. exact I.
  - vm_compute. reflexivity.
  - discriminate.
Defined.

(** ** The ranking of [analyze_results] *)

Lemma insert_desc_perm item sorted : insert_desc item sorted ≡ₚ item :: sorted.
Proof.
  induction sorted as [|other rest IH]; simpl; [done|].
  destruct (item.2 <? other.2); [|done].
  rewrite IH. apply Permutation_swap.
Qed.

Lemma insert_desc_sorted item sorted :
  StronglySorted (fun x y : string * Z => y.2 <= x.2) sorted ->
  StronglySorted (fun x y : string * Z => y.2 <= x.2) (insert_desc item sorted).
Proof.
  induction sorted as [|other rest IH]; intros Hs; simpl.
  - repeat constructor.
  - apply StronglySorted_inv in Hs as [Hrest Hall].
    destruct (Z.ltb_spec item.2 other.2) as [Hlt|Hge].
    + constructor; [by apply IH|].
      rewrite insert_desc_perm. constructor; [lia|done].
    + constructor; [by constructor|].
      constructor; [done|].
      eapply Forall_impl; [exact Hall|]. simpl. intros z Hz. lia.
Qed.

Lemma insert_desc_stable item sorted n :
  filter (fun i : string * Z => i.2 = n) (insert_desc item sorted)
  = filter (fun i : string * Z => i.2 = n) (item :: sorted).
Proof.
  induction sorted as [|other rest IH]; simpl; [done|].
  destruct (Z.ltb_spec item.2 other.2) as [Hlt|Hge]; [|done].
  rewrite !filter_cons, IH, filter_cons.
  repeat case_decide; try done; lia.
Qed.

Lemma sorted_by_count_perm (items : list (string * Z)) :
  sorted_by_count items ≡ₚ items.
Proof.
  unfold sorted_by_count. induction items as [|item items IH]; [done|].
  simpl. by rewrite insert_desc_perm, IH.
Qed.

(** X18.  The ranking is the list of items rearranged so that counts never
    increase down the list, and items of equal count keep the order they
    had among themselves. *)
Theorem sorted_by_count_spec (items : list (string * Z)) :
  sorted_by_count items ≡ₚ items
  /\ StronglySorted (fun x y : string * Z => y.2 <= x.2) (sorted_by_count items)
  /\ forall n, filter (fun i : string * Z => i.2 = n) (sorted_by_count items)
               = filter (fun i : string * Z => i.2 = n) items.
Proof.
  unfold sorted_by_count. induction items as [|item items (IHp & IHs & IHf)].
  - simpl. split; [done|]. split; [constructor|done].
  - simpl. split; [|split].
    + by rewrite insert_desc_perm, IHp.
    + by apply insert_desc_sorted.
    + intros n. by rewrite insert_desc_stable, !filter_cons, IHf.
Qed.

Lemma marked_rows_none (items : list (string * Z)) expected_state :
  expected_state ∉ items.*1 ->
  filter (fun r => row_target r = true)
    ((fun item : string * Z =>
        {| row_state := item.1; row_count := item.2;
           row_target := String.eqb item.1 expected_state |}) <$> items)
  = [].
Proof.
  induction items as [|[s c] items IH]; intros Hnot; [done|].
  rewrite fmap_cons, filter_cons. simpl in *.
  apply not_elem_of_cons in Hnot as [Hne Hnot].
  rewrite (proj2 (String.eqb_neq s expected_state)) by done.
  case_decide; [done|]. by apply IH.
Qed.

Lemma marked_rows_one (items : list (string * Z)) expected_state c :
  NoDup items.*1 ->
  (expected_state, c) ∈ items ->
  filter (fun r => row_target r = true)
    ((fun item : string * Z =>
        {| row_state := item.1; row_count := item.2;
           row_target := String.eqb item.1 expected_state |}) <$> items)
  = [{| row_state := expected_state; row_count := c; row_target := true |}].
Proof.
  induction items as [|[s c0] items IH]; intros Hnd Hin; [by inversion Hin|].
  rewrite fmap_cons, filter_cons. simpl in *.
  apply NoDup_cons in Hnd as [Hs Hnd].
  apply elem_of_cons in Hin as [[= <- <-]|Hin].
  - rewrite String.eqb_refl. case_decide; [|done].
    by rewrite marked_rows_none.
  - assert (Hne : s <> expected_state).
    { intros ->. apply Hs. apply list_elem_of_fmap. by exists (expected_state, c). }
    rewrite (proj2 (String.eqb_neq s expected_state)) by done.
    case_decide; [done|]. by apply IH.
Qed.

(** X19.  With the keys of a dictionary, which are pairwise different, the marker
    of the expected state is printed on exactly one line when the
    histogram contains the state, the line of that state with its count,
    and on no line otherwise. *)
Theorem distribution_rows_target (items : list (string * Z)) expected_state :
  NoDup items.*1 ->
  (forall c, (expected_state, c) ∈ items ->
     filter (fun r => row_target r = true)
       (distribution_rows items expected_state)
     = [{| row_state := expected_state; row_count := c; row_target := true |}])
  /\ (expected_state ∉ items.*1 ->
      filter (fun r => row_target r = true)
        (distribution_rows items expected_state) = []).
Proof.
  intros Hnd. unfold distribution_rows.
  pose proof (sorted_by_count_perm items) as Hperm.
  split.
  - intros c Hin. apply marked_rows_one.
    + by rewrite Hperm.
    + by rewrite Hperm.
  - intros Hnot. apply marked_rows_none. by rewrite Hperm.
Qed.

Lemma distribution_rows_target_witness :
  filter (fun r => row_target r = true)
    (distribution_rows [("00", 60); ("11", 820); ("01", 70); ("10", 50)] "11")
  = [{| row_state := "11"; row_count := 820; row_target := true |}].
Proof.
  destruct (distribution_rows_target
              [("00", 60); ("11", 820); ("01", 70); ("10", 50)] "11")
    as [Hmarked _].
  - apply (bool_decide_unpack (NoDup ["00"; "11"; "01"; "10"])).
    vm_compute. exact I.
  - apply Hmarked. right. left.
Defined.

(** ** Running on a QPU *)

Section ExecutionProperties.

Variable Accounts : Type.
Variable connect : Accounts -> string -> string -> result Service.
Variable save_account :
  Accounts -> string -> string -> string -> bool -> result Accounts.
Variable load_config : result Config.
Variable TranspiledCircuit : Type.
Variable transpile :
  QuantumCircuit -> Backend -> Z -> result TranspiledCircuit.
Variable sampler_run :
  Service -> Backend -> TranspiledCircuit -> Z -> result (string * Job).

Local Abbreviation get_service :=
  (get_qiskit_service Accounts connect save_account).
Local Abbreviation run :=
  (run_grover_on_qpu Accounts connect save_account load_config
     TranspiledCircuit transpile sampler_run).
Local Abbreviation main_of :=
  (main Accounts connect save_account load_config
     TranspiledCircuit transpile sampler_run).

Lemma reraise_id {A} (m : result A) :
  try_except_Exception m (fun e => Raise e) = m.
Proof.
  unfold try_except_Exception. destruct m as [a|e]; [done|].
  by destruct (is_Exception e).
Qed.

(** X20.  What [run_grover_on_qpu] returns comes from one job: the Grover
    circuit, transpiled for a backend that survives the filter with two
    qubits, submitted with the shots of the configuration; the name
    returned is the name of that backend, the identifier and the histogram
    are those of that job. *)
Theorem run_grover_on_qpu_returns dotenv environ saved counts job_id backend_name :
  run dotenv environ saved = Return (counts, job_id, backend_name) ->
  exists config service backend t_circuit j,
    load_config = Return config
    /\ get_service dotenv environ saved = Return service
    /\ backend ∈ surviving service 2
    /\ backend_name = name backend
    /\ transpile build_grover_2bit_circuit backend
         (cfg_optimization_level config) = Return t_circuit
    /\ sampler_run service backend t_circuit (cfg_shots config)
       = Return (job_id, j)
    /\ job_result j = Return counts.
Proof.
  unfold run_grover_on_qpu.
  destruct load_config as [config|e]; [|done]. simpl.
  destruct (get_service dotenv environ saved) as [service|e]; [|done]. simpl.
  destruct (select_best_qpu service (Some (cfg_preferred_qpus config)) 2)
    as [backend|e] eqn:Hsel; [|done]. simpl.
  destruct (transpile build_grover_2bit_circuit backend
              (cfg_optimization_level config)) as [t_circuit|e] eqn:Ht;
    [|done]. simpl.
  destruct (sampler_run service backend t_circuit (cfg_shots config))
    as [[jid j]|e] eqn:Hrun; [|done]. simpl.
  rewrite reraise_id.
  destruct (job_result j) as [c|e] eqn:Hres; [|done]. simpl.
  intros [= <- <- <-].
  exists config, service, backend, t_circuit, j.
  apply select_best_qpu_Return_surviving in Hsel. done.
Qed.

(** X21.  When the service has no operational hardware backend with two qubits,
    [run_grover_on_qpu] raises the [ValueError] of [select_best_qpu];
    transpilation and submission play no part. *)
Theorem run_grover_on_qpu_no_qpu dotenv environ saved config service :
  load_config = Return config ->
  get_service dotenv environ saved = Return service ->
  surviving service 2 = [] ->
  run dotenv environ saved = Raise (Exn ValueError (no_qpu_message 2)).
Proof.
  intros Hc Hs Hnone. unfold run_grover_on_qpu.
  rewrite Hc. simpl. rewrite Hs. simpl.
  by rewrite (select_best_qpu_empty _ _ _ Hnone).
Qed.


(** X23.  When [main] ends without a result it has written no file.  It
    returns [None] exactly when the run was interrupted from the keyboard,
    and it never raises [KeyboardInterrupt] itself. *)
Theorem main_without_result dotenv environ saved results_dir answer results_dir' :
  main Accounts connect save_account load_config TranspiledCircuit transpile
    sampler_run dotenv environ saved results_dir = (answer, results_dir') ->
  (forall r, answer <> Return (Some r)) ->
  results_dir' = results_dir
  /\ (answer = Return None <->
      exists e,
        run_grover_on_qpu Accounts connect save_account load_config
          TranspiledCircuit transpile sampler_run dotenv environ saved
        = Raise e
        /\ exn_cls e = KeyboardInterrupt)
  /\ (forall e, answer = Raise e -> exn_cls e <> KeyboardInterrupt).
Proof.
  unfold main.
  destruct (run dotenv environ saved) as [[[c jid] bn]|e].
  - unfold analyze_results, true_div.
    destruct (Z.eqb_spec (sum_values c) 0) as [Hz|Hnz]; simpl.
    + intros [= <- <-] _. split; [done|]. split.
      * split; [done|]. by intros (e & He & _).
      * by intros e [= <-].
    + intros [= <- <-] Hno. by destruct (Hno _ eq_refl).
  - intros [= <- <-] _. split; [done|]. split.
    + split.
      * intros H. exists e. split; [done|].
        unfold main_handler in H. by destruct (exn_cls e).
      * intros (e' & [= <-] & He'). unfold main_handler. by rewrite He'.
    + intros e' H. unfold main_handler in H.
      destruct (exn_cls e) eqn:Hcls; [done|..];
        injection H as <-; by rewrite Hcls.
Qed.

(** X24.  A run that ends with a histogram without shots makes [main] raise
    [ZeroDivisionError]; the histogram is not saved. *)
Theorem main_zero_shots dotenv environ saved results_dir counts job_id backend_name :
  run dotenv environ saved = Return (counts, job_id, backend_name) ->
  sum_values counts = 0 ->
  main_of dotenv environ saved results_dir
  = (Raise (Exn ZeroDivisionError "division by zero"), results_dir).
Proof.
  intros Hrun Hzero. unfold main. rewrite Hrun.
  unfold analyze_results, true_div. by rewrite Hzero.
Qed.

End ExecutionProperties.

Lemma run_grover_on_qpu_returns_witness :
  exists config service backend t_circuit j,
    Return example_config = Return config
    /\ get_qiskit_service unit connect_always save_always env_complete ∅ tt
       = Return service
    /\ backend ∈ surviving service 2
    /\ "ibm_real2" = name backend
    /\ transpile_id build_grover_2bit_circuit backend
         (cfg_optimization_level config) = Return t_circuit
    /\ run_done service backend t_circuit (cfg_shots config)
       = Return ("job-done", j)
    /\ job_result j = Return scenario_counts.
Proof.
  apply (run_grover_on_qpu_returns unit connect_always save_always
           (Return example_config) QuantumCircuit transpile_id run_done
           env_complete ∅ tt scenario_counts "job-done" "ibm_real2").
  vm_compute. reflexivity.
Defined.

Lemma run_grover_on_qpu_no_qpu_witness :
  run_grover_on_qpu unit connect_sim save_always (Return example_config)
    QuantumCircuit transpile_id run_done env_complete ∅ tt
  = Raise (Exn ValueError (no_qpu_message 2)).
Proof.
  apply (run_grover_on_qpu_no_qpu unit connect_sim save_always
           (Return example_config) QuantumCircuit transpile_id run_done
           env_complete ∅ tt example_config (catalogue [ibm_sim])).
  - reflexivity.
  - vm_compute. reflexivity.
  - reflexivity.
Defined.


Lemma main_without_result_witness :
  (∅ : gmap string ResultData) = ∅
  /\ ((Return None : result (option (Counts * string * Q))) = Return None <->
      exists e,
        run_grover_on_qpu unit connect_always save_always
          (Return example_config) QuantumCircuit transpile_id run_interrupted
          env_complete ∅ tt = Raise e
        /\ exn_cls e = KeyboardInterrupt)
  /\ (forall e, (Return None : result (option (Counts * string * Q))) = Raise e ->
                exn_cls e <> KeyboardInterrupt).
Proof.
  apply (main_without_result unit connect_always save_always
           (Return example_config) QuantumCircuit transpile_id run_interrupted
           env_complete ∅ tt ∅ (Return None) ∅).
  - vm_compute. reflexivity.
  - discriminate.
Defined.

Lemma main_zero_shots_witness :
  main unit connect_always save_always (Return example_config)
    QuantumCircuit transpile_id run_empty env_complete ∅ tt ∅
  = (Raise (Exn ZeroDivisionError "division by zero"), ∅).
Proof.
  apply (main_zero_shots unit connect_always save_always
           (Return example_config) QuantumCircuit transpile_id run_empty
           env_complete ∅ tt ∅ zero_counts "job-empty" "ibm_real2").
  - vm_compute. reflexivity.
  - vm_compute. reflexivity.
Defined.

(** ** [grover/circuits.py] *)

Lemma sum_values_update (gate_counts : gmap string Z) gate :
  sum_values (<[gate := default 0 (gate_counts !! gate) + 1]> gate_counts)
  = sum_values gate_counts + 1.
Proof.
  destruct (gate_counts !! gate) as [v|] eqn:E; simpl.
  - rewrite <- insert_delete_eq.
    rewrite sum_values_insert by apply lookup_delete_eq.
    rewrite <- (insert_delete_id gate_counts gate v E) at 2.
    rewrite sum_values_insert by apply lookup_delete_eq. lia.
  - by rewrite sum_values_insert.
Qed.

Lemma count_gates_sum instructions gate_counts :
  sum_values (count_gates instructions gate_counts)
  = sum_values gate_counts + Z.of_nat (length instructions).
Proof.
  revert gate_counts.
  induction instructions as [|i rest IH]; intros gate_counts; simpl.
  - lia.
  - rewrite IH, sum_values_update. lia.
Qed.

Lemma count_gates_lookup instructions gate_counts gate :
  count_gates instructions gate_counts !! gate
  = match occurrences gate instructions with
    | O => gate_counts !! gate
    | S n => Some (default 0 (gate_counts !! gate) + Z.of_nat (S n))
    end.
Proof.
  revert gate_counts. unfold occurrences.
  induction instructions as [|i rest IH]; intros gate_counts; simpl; [done|].
  rewrite IH.
  destruct (String.eqb_spec (gate_name (operation i)) gate) as [->|Hne]; simpl.
  - rewrite lookup_insert_eq. simpl.
    destruct (length _); f_equal; lia.
  - by rewrite lookup_insert_ne.
Qed.

(** X25.  The gate counts of [print_circuit_info]: a gate name is listed with the
    number of instructions that carry it, a name that does not occur is
    not listed, and the counts add up to the number of operations
    printed. *)
Theorem print_circuit_info_gate_counts circuit :
  (forall gate,
     info_gate_counts (print_circuit_info circuit) !! gate
     = match occurrences gate (data circuit) with
       | O => None
       | S n => Some (Z.of_nat (S n))
       end)
  /\ sum_values (info_gate_counts (print_circuit_info circuit))
     = Z.of_nat (info_operations (print_circuit_info circuit)).
Proof.
  unfold print_circuit_info. simpl. split.
  - intros gate. rewrite count_gates_lookup, lookup_empty. simpl.
    by destruct (occurrences gate (data circuit)).
  - by rewrite count_gates_sum, sum_values_empty.
Qed.

(** X26.  The three gates in the middle of the diffuser, [h(1)], [cx(0, 1)],
    [h(1)], act on every state of the two qubits as [cz(0, 1)] does. *)
Theorem diffuser_core_is_cz circuit_name s :
  run_instructions
    (data (qc_h [1%nat] (qc_cx 0 1 (qc_h [1%nat] (new_circuit 2 circuit_name)))))
    s
  = rescale <$> run_instructions (data (qc_cz 0 1 (new_circuit 2 circuit_name))) s.
Proof.
  destruct s as [x00 x01 x10 x11 h]. simpl. unfold rescale. simpl.
  f_equal. f_equal; lia.
Qed.

(** X27.  The circuit that [build_grover_2bit_circuit] builds goes through the
    states that [visualize_circuit] prints: from [|00>] to the uniform
    superposition at the first barrier, to the superposition with the sign
    of [|11>] flipped at the second, and to [|11>] (up to sign) at the
    third; the measurement at the end gives [11] with certainty. *)
Theorem build_grover_2bit_circuit_finds_11 :
  run_instructions
    (before_barrier "Superposição" (data build_grover_2bit_circuit)) ket00
  = Some {| a00 := 1; a01 := 1; a10 := 1; a11 := 1; halvings := 2 |}
  /\ run_instructions
       (before_barrier "Oracle |11⟩" (data build_grover_2bit_circuit)) ket00
     = Some {| a00 := 1; a01 := 1; a10 := 1; a11 := -1; halvings := 2 |}
  /\ exists s,
       run_instructions (data build_grover_2bit_circuit) ket00 = Some s
       /\ run_instructions
            (before_barrier "Difusor" (data build_grover_2bit_circuit)) ket00
          = Some s
       /\ a00 s = 0 /\ a01 s = 0 /\ a10 s = 0
       /\ a11 s * a11 s = 2 ^ Z.of_nat (halvings s)
       /\ weight s = 2 ^ Z.of_nat (halvings s).
Proof.
  split; [by vm_compute|]. split; [by vm_compute|].
  eexists. split; [by vm_compute|]. by vm_compute.
Qed.

(** ** The order of the bands *)

Lemma interpret_monotone f1 f2 :
  (f1 <= f2)%Q -> (band_rank (interpret f1) <= band_rank (interpret f2))%nat.
Proof.
  intros Hle. unfold interpret.
  destruct (Qle_bool 0.80 f1) eqn:E1.
  { apply Qle_bool_iff in E1.
    rewrite (proj2 (Qle_bool_iff 0.80 f2)) by (by eapply Qle_trans). done. }
  destruct (Qle_bool 0.80 f2); [simpl; destruct (Qle_bool 0.60 f1);
    [|destruct (Qle_bool 0.40 f1)]; simpl; lia|].
  destruct (Qle_bool 0.60 f1) eqn:E2.
  { apply Qle_bool_iff in E2.
    rewrite (proj2 (Qle_bool_iff 0.60 f2)) by (by eapply Qle_trans). done. }
  destruct (Qle_bool 0.60 f2); [destruct (Qle_bool 0.40 f1); simpl; lia|].
  destruct (Qle_bool 0.40 f1) eqn:E3.
  { apply Qle_bool_iff in E3.
    rewrite (proj2 (Qle_bool_iff 0.40 f2)) by (by eapply Qle_trans). done. }
  destruct (Qle_bool 0.40 f2); simpl; lia.
Qed.

(** X28.  The interpretation follows the fidelity: of two analyses, the one
    with the greater fidelity never gets the lower band. *)
Theorem analyze_results_band_monotone (counts1 counts2 : Counts)
    name1 name2 expected1 expected2 r1 r2 :
  analyze_results counts1 name1 expected1 = Return r1 ->
  analyze_results counts2 name2 expected2 = Return r2 ->
  (fidelity r1 <= fidelity r2)%Q ->
  (band_rank (band r1) <= band_rank (band r2))%nat.
Proof.
  intros H1 H2 Hle.
  rewrite (analyze_results_band_interpret _ _ _ _ H1),
          (analyze_results_band_interpret _ _ _ _ H2).
  by apply interpret_monotone.
Qed.

Lemma analyze_results_band_monotone_witness :
  (band_rank Poor <= band_rank Excellent)%nat.
Proof.
  apply (analyze_results_band_monotone scenario_counts scenario_counts
           "ibm_real2" "ibm_real2" "00" "11"
           {| total_shots := 1000; fidelity := 60 # 1000; band := Poor |}
           {| total_shots := 1000; fidelity := 820 # 1000; band := Excellent |}).
  - vm_compute. reflexivity.
  - vm_compute. reflexivity.
  - vm_compute. discriminate.
Defined.
